(** * switch-api: the uplink orchestration layer ([src/uplink.ts])

  A shallow embedding of [connectUplink], [setupHandlers],
  [verifyUpstreamAssetDetails], [sendPacket], [registerPacketHandler],
  [deregisterPacketHandler], [getNativeMaxInFlight], [disconnect] and
  [sumAll], together with the properties the specification states about
  them.

  Conventions of the embedding:
  - a [BigNumber] is a rational ([Q]): every finite decimal is one, and the
    code only adds, subtracts and truncates them;
  - a [Buffer] is a list of bytes, a JavaScript string is a [string];
  - a promise-returning function is a computation in the monad [M]: it
    reads the trace of external calls made so far, extends it and either
    resolves with a value or rejects with an [Error];
  - everything outside [uplink.ts] (the plugin, the ILDCP handshake, the
    rate conversion, the wrapper, the STREAM server, the logger) answers
    through a [World], whose answers may depend on the whole history. *)

From Stdlib Require Import List String Ascii Bool Arith ZArith QArith Lia.
From Stdlib Require Import Qround Lqa Permutation.
Import ListNotations.

Set Implicit Arguments.

(** ** JavaScript string operations used by the packet router *)

Module JsString.

Local Open Scope string_scope.

(** [s.slice(n)] *)
Fixpoint drop (n : nat) (s : string) : string :=
  match n, s with
  | O, _ => s
  | S _, EmptyString => EmptyString
  | S n', String _ s' => drop n' s'
  end.

(** [s.includes(pat)] *)
Fixpoint includes (pat s : string) : bool :=
  if prefix pat s then true
  else match s with
       | EmptyString => false
       | String _ s' => includes pat s'
       end.

(** [s.replace(pat, rep)] for a string pattern: only the first (leftmost)
    occurrence of [pat] is replaced, wherever it is in [s]; [rep] is taken
    literally (the router passes the empty string, which has no [$]
    pattern). *)
Fixpoint replace (pat rep s : string) : string :=
  if prefix pat s then rep ++ drop (length pat) s
  else match s with
       | EmptyString => EmptyString
       | String c s' => String c (replace pat rep s')
       end.

(** [s.split(sep)] for a one-character separator: never the empty array,
    [''.split('.')] is [['']]. *)
Fixpoint split (sep : ascii) (s : string) : list string :=
  match s with
  | EmptyString => [EmptyString]
  | String c s' =>
      if Ascii.eqb c sep then EmptyString :: split sep s'
      else match split sep s' with
           | [] => [String c EmptyString]
           | seg :: segs => String c seg :: segs
           end
  end.

(** [!!a] on a string: true exactly on the non-empty ones. *)
Definition truthy (a : string) : bool :=
  match a with
  | EmptyString => false
  | String _ _ => true
  end.

(** [xs.some(f)] *)
Definition some {A : Type} (f : A -> bool) (xs : list A) : bool := existsb f xs.

(** A string made of separators only (the empty string included). *)
Fixpoint onlySeparators (sep : ascii) (s : string) : bool :=
  match s with
  | EmptyString => true
  | String c s' => Ascii.eqb c sep && onlySeparators sep s'
  end.

End JsString.

(** ** The balance and capacity tracker (RxJS part of [connectUplink])

    [x_] stands for the source's observable [x$]. *)

Module Rx.

Definition BigNumber : Type := Q.

(** A [BehaviorSubject]: the value it holds, every value it has delivered
    (oldest first, starting with the one it was created with, which a late
    subscriber still observes), and whether it was stopped by an error
    notification. *)
Record BehaviorSubject : Type := mkSubject {
  value : BigNumber;
  emitted : list BigNumber;
  hasError : bool
}.

(** [new BehaviorSubject(v)] *)
Definition newSubject (v : BigNumber) : BehaviorSubject := mkSubject v [v] false.

(** [subject.next(v)]: a stopped subject ignores it. *)
Definition next (v : BigNumber) (s : BehaviorSubject) : BehaviorSubject :=
  if hasError s then s else mkSubject v (emitted s ++ [v]) false.

(** [subject.error(err)] *)
Definition error (s : BehaviorSubject) : BehaviorSubject :=
  mkSubject (value s) (emitted s) true.

(** [values.reduce(f)] without an initial value: a TypeError ([None]) on the
    empty array. *)
Definition reduce {A : Type} (f : A -> A -> A) (values : list A) : option A :=
  match values with
  | [] => None
  | a :: rest => Some (fold_left f rest a)
  end.

(** The projection of [sumAll = map(values => values.reduce((a, b) => a.plus(b)))]. *)
Definition sumAll (values : list BigNumber) : option BigNumber := reduce Qplus values.

(** The state of [combineLatest]: the latest value of each input, [None]
    until that input has delivered one. *)
Definition Latest : Type := list (option BigNumber).

Fixpoint setLatest (i : nat) (v : BigNumber) (buf : Latest) : Latest :=
  match buf, i with
  | [], _ => []
  | _ :: rest, O => Some v :: rest
  | x :: rest, S i' => x :: setLatest i' v rest
  end.

(** [combineLatest] emits the array of latest values once every input has
    one. *)
Fixpoint allLatest (buf : Latest) : option (list BigNumber) :=
  match buf with
  | [] => Some []
  | None :: _ => None
  | Some v :: rest => option_map (cons v) (allLatest rest)
  end.

(** [combineLatest(...).pipe(sumAll).subscribe(balance_)] receiving [v] from
    its input number [i]. *)
Definition deliver (i : nat) (v : BigNumber) (st : Latest * BehaviorSubject)
  : Latest * BehaviorSubject :=
  let buf := setLatest i v (fst st) in
  match allLatest buf with
  | None => (buf, snd st)
  | Some values =>
      match sumAll values with
      | Some total => (buf, next total (snd st))
      | None => (buf, error (snd st))
      end
  end.

(** The observables of an uplink: the three sources of the settlement engine
    that [connectUplink] subscribes to, and the three it derives. *)
Record Tracker : Type := mkTracker {
  outgoingCapacity_ : BehaviorSubject;
  incomingCapacity_ : BehaviorSubject;
  totalReceived_ : BehaviorSubject;
  combined : Latest;
  balance_ : BehaviorSubject;
  availableToSend_ : BehaviorSubject;
  availableToReceive_ : BehaviorSubject
}.

(** Lines 114-117 and 136-140 of [connectUplink]. Subscribing to a
    [BehaviorSubject] delivers its current value at once; [combineLatest]
    subscribes to its inputs from left to right. *)
Definition wire (outgoingCapacity incomingCapacity totalReceived : BehaviorSubject)
  : Tracker :=
  let balance0 := newSubject 0 in
  let st := deliver 1 (value totalReceived)
              (deliver 0 (value outgoingCapacity) ([None; None], balance0)) in
  let availableToReceive := next (value incomingCapacity) (newSubject 0) in
  let availableToSend := next (value outgoingCapacity) (newSubject 0) in
  mkTracker outgoingCapacity incomingCapacity totalReceived
            (fst st) (snd st) availableToSend availableToReceive.

(** A value notification of one of the settlement engine's sources. *)
Inductive Emission : Type :=
| OutgoingCapacity (v : BigNumber)
| IncomingCapacity (v : BigNumber)
| TotalReceived (v : BigNumber).

(** The source calls [next(v)] and its subscribers run synchronously, in the
    order in which [connectUplink] subscribed them. *)
Definition emit (t : Tracker) (e : Emission) : Tracker :=
  match e with
  | OutgoingCapacity v =>
      let st := deliver 0 v (combined t, balance_ t) in
      mkTracker (next v (outgoingCapacity_ t)) (incomingCapacity_ t) (totalReceived_ t)
                (fst st) (snd st) (next v (availableToSend_ t)) (availableToReceive_ t)
  | IncomingCapacity v =>
      mkTracker (outgoingCapacity_ t) (next v (incomingCapacity_ t)) (totalReceived_ t)
                (combined t) (balance_ t) (availableToSend_ t)
                (next v (availableToReceive_ t))
  | TotalReceived v =>
      let st := deliver 1 v (combined t, balance_ t) in
      mkTracker (outgoingCapacity_ t) (incomingCapacity_ t) (next v (totalReceived_ t))
                (fst st) (snd st) (availableToSend_ t) (availableToReceive_ t)
  end.

Definition run (t : Tracker) (es : list Emission) : Tracker := fold_left emit es t.

(** What the claim calls the latest emitted value of a source: the value of
    its last notification, or the one it held when [connectUplink] subscribed. *)
Definition latestOutgoingCapacity (initial : BigNumber) (es : list Emission) : BigNumber :=
  fold_left (fun acc e => match e with OutgoingCapacity v => v | _ => acc end) es initial.

Definition latestTotalReceived (initial : BigNumber) (es : list Emission) : BigNumber :=
  fold_left (fun acc e => match e with TotalReceived v => v | _ => acc end) es initial.

(** The values of the outgoing and incoming capacity notifications, in
    order. *)
Definition outgoingValues (es : list Emission) : list BigNumber :=
  flat_map (fun e => match e with OutgoingCapacity v => [v] | _ => [] end) es.

Definition incomingValues (es : list Emission) : list BigNumber :=
  flat_map (fun e => match e with IncomingCapacity v => [v] | _ => [] end) es.

(** [distinctBigNum = distinctUntilChanged((prev, curr) => prev.eq(curr))]
    applied to the values a source delivers, oldest first: a value passes
    unless it is numerically equal ([BigNumber.eq]) to the last one that
    passed. *)
Fixpoint distinctFrom (prev : BigNumber) (values : list BigNumber) : list BigNumber :=
  match values with
  | [] => []
  | curr :: rest =>
      if Qeq_bool prev curr then distinctFrom prev rest
      else curr :: distinctFrom curr rest
  end.

Definition distinctBigNum (values : list BigNumber) : list BigNumber :=
  match values with
  | [] => []
  | first :: rest => first :: distinctFrom first rest
  end.

(** No two neighbours are numerically equal. *)
Fixpoint changing (values : list BigNumber) : bool :=
  match values with
  | a :: (b :: _) as rest => negb (Qeq_bool a b) && changing rest
  | _ => true
  end.

(** The sums of the latest outgoing capacity and the latest total received
    after each notification of one of the two, in order, starting from the
    latest values [lo] and [lr]. *)
Fixpoint sumsAfter (lo lr : BigNumber) (es : list Emission) : list BigNumber :=
  match es with
  | [] => []
  | OutgoingCapacity v :: rest => Qplus v lr :: sumsAfter v lr rest
  | TotalReceived v :: rest => Qplus lo v :: sumsAfter lo v rest
  | IncomingCapacity _ :: rest => sumsAfter lo lr rest
  end.

Definition feedsBalance (e : Emission) : bool :=
  match e with
  | OutgoingCapacity _ | TotalReceived _ => true
  | IncomingCapacity _ => false
  end.

End Rx.

(** ** The Ethereum ledger ([src/ledgers/eth.ts]) *)

Module Eth.

Local Open Scope Q_scope.

(** The [balance] options [createPlugin] hands to the Ethereum plugin. *)
Record BalanceOpts : Type := mkBalance {
  maximum : Q;
  settleThreshold : Q;
  settleTo : Q
}.

Record PluginOpts : Type := mkPluginOpts {
  balance : BalanceOpts;
  ethereumPrivateKey : string;
  outgoingChannelAmount : Q;
  role : string;
  server : string
}.

Definition assetCode : string := "ETH".
Definition assetScale : Z := 9.

Section Ledger.

(** [convert] and [IUnit] of [../utils/convert], a module of the repository
    other than [eth.ts], are taken as given. *)
Variable IUnit : Type.
Variables unitEth unitGwei : IUnit.
Variable convert : string -> IUnit -> IUnit -> Q.

(** The private key the ledger was constructed with. *)
Variable privateKey : string.

Definition maxInFlight : Q := convert "0.0001" unitEth unitGwei.

(** [gas] of [createPlugin]. *)
Definition gas : Z := 115636 + 50443 + 40201.

(** [createPlugin] once [getGasPrice] has answered [gasPrice]. *)
Definition createPlugin (gasPrice : Q) (serverUri : string) : PluginOpts :=
  let txFee := gasPrice * inject_Z gas in
  let maxCredit := txFee * (15 # 10) in
  mkPluginOpts
    (mkBalance (maxCredit + maxInFlight * 2) maxCredit maxCredit)
    privateKey
    (convert "0.05" unitEth unitGwei)
    "client"
    serverUri.

(** The amount [setupPlugin] asks the exchange to stream, once
    [getGasPrice] has answered [gasPrice]. *)
Definition setupPluginAmount (gasPrice : Q) : Q :=
  let openTxFee := gasPrice * inject_Z 115636 in
  openTxFee * (15 # 10).

End Ledger.

End Eth.

(** ** Packets, errors and the promise monad *)

Definition Buffer : Type := list Byte.byte.

(** A JavaScript [Error], identified by its message. *)
Record Error : Type := mkError { message : string }.

(** The outcome of a settled promise (or of a call that may throw):
    rejected with an error, or resolved with a value. *)
Definition Result (A : Type) : Type := (Error + A)%type.

(** [IlpPrepare] of ilp-packet; [amount] is the integer its decimal string
    denotes and [expiresAt] a timestamp. *)
Record IlpPrepare : Type := mkPrepare {
  destination : string;
  amount : Z;
  executionCondition : Buffer;
  expiresAt : Z;
  data : Buffer
}.

Inductive IlpReply : Type :=
| IlpFulfill (fulfillment : Buffer) (replyData : Buffer)
| IlpReject (code : string) (rejectMessage : string) (triggeredBy : string)
            (replyData : Buffer).

(** The answer of the ILDCP handshake ([fetchAssetDetails]). *)
Record AssetDetails : Type := mkAssetDetails {
  peerAssetCode : string;
  peerAssetScale : Z;
  peerClientAddress : string
}.

(** The options [connectUplink] constructs the [PluginWrapper] with (its
    plugin is the uplink's plugin, its store wraps the configured store). *)
Record PluginWrapperOpts : Type := mkOpts {
  maxBalance : Q;
  maxPacketAmount : Q;
  optsAssetCode : string;
  optsAssetScale : Z;
  logNamespace : string
}.

(** [hasConnectionTag] of the data handler of [setupHandlers]. *)
Definition hasConnectionTag (clientAddress dest : string) : bool :=
  JsString.some JsString.truthy
    (JsString.split "."%char (JsString.replace clientAddress EmptyString dest)).

(** [x.dp(0, BigNumber.ROUND_DOWN)]: BigNumber's ROUND_DOWN rounds towards
    zero. *)
Definition dp0_ROUND_DOWN (x : Q) : Q := inject_Z (Z.quot (Qnum x) (Zpos (Qden x))).

(** Modelled from the spec: [PluginWrapper.sendMoney] of [utils/middlewares],
    a module of the repository other than [uplink.ts]. "Trigger a settlement transfer
    of [additionalPrefundRequired] on the wrapper; if the value is <= 0 this
    is a no-op": the transfer that a request for [amount] issues, if any. *)
Definition sendMoney_transfer (amount : Q) : option Q :=
  if Qle_bool amount 0 then None else Some amount.

(** Types declared in modules of the repository or of its dependencies that
    [uplink.ts] only passes around. *)
Class ExternalTypes : Type := {
  SettlementEngineType : Type;
  AssetQuantity : Type;
  AssetUnit : Type;
  RateApi : Type;
  StreamServer : Type;
  SimpleStore : Type
}.

Section Uplink.

Context {types : ExternalTypes}.

(** [SettlementEngine] ([./settlement]), as far as [uplink.ts] reads it. *)
Record SettlementEngine : Type := mkSettler {
  assetCode : string;
  assetScale : Z;
  baseUnit : unit -> AssetUnit
}.

(** [State] ([./api]), as far as [uplink.ts] reads it. *)
Record State : Type := mkState {
  maxInFlightUsd : AssetQuantity;
  rateBackend : RateApi
}.

Record BaseUplinkConfig : Type := mkConfig {
  settlerType : SettlementEngineType;
  serverSecret : Buffer;
  store : SimpleStore
}.

(** The settlement engine's part of an uplink; its plugin is the one the
    [World] below stands for. *)
Record BaseUplink : Type := mkBaseUplink {
  uplinkSettlerType : SettlementEngineType;
  credentialId : string;
  outgoingCapacity_ : Rx.BehaviorSubject;
  incomingCapacity_ : Rx.BehaviorSubject;
  totalReceived_ : Rx.BehaviorSubject;
  totalSent_ : Rx.BehaviorSubject
}.

(** An external call together with its outcome, where the outcome is data. *)
Inductive Event : Type :=
| EvGetOrCreateSettler (ty : SettlementEngineType) (r : Result SettlementEngine)
| EvPluginConnect (r : Result unit)
| EvFetchAssetDetails (r : Result AssetDetails)
| EvPluginDisconnect (r : Result unit)
| EvConvert (source : AssetQuantity) (dest : AssetUnit) (api : RateApi) (r : Result Q)
| EvNewPluginWrapper (opts : PluginWrapperOpts)
| EvDeregisterDataHandler
| EvRegisterDataHandler
| EvStartStreamServer (secret : Buffer)
| EvStopStreamServer (server : StreamServer) (r : Result unit)
| EvSendMoney (requested : Q) (r : Result unit)
| EvSendData (payload : Buffer) (r : Result Buffer)
| EvLogError (msg : string) (err : Error).

Definition Trace : Type := list Event.

(** A promise-returning computation: from the trace so far to the extended
    trace and the outcome. *)
Definition M (A : Type) : Type := Trace -> Trace * Result A.

Definition ret {A : Type} (a : A) : M A := fun tr => (tr, inr a).

Definition throw {A : Type} (err : Error) : M A := fun tr => (tr, inl err).

(** [await c] followed by [k]. *)
Definition bind {A B : Type} (c : M A) (k : A -> M B) : M B :=
  fun tr =>
    match c tr with
    | (tr', inl err) => (tr', inl err)
    | (tr', inr a) => k a tr'
    end.

(** A call that may throw synchronously. *)
Definition lift {A : Type} (r : Result A) : M A := fun tr => (tr, r).

(** Runs [c] to its outcome without propagating a rejection. *)
Definition settle {A : Type} (c : M A) : M (Result A) :=
  fun tr => let (tr', r) := c tr in (tr', inr r).

(** An external call: the world answers from the history, and the call is
    appended to the trace. *)
Definition call {A : Type} (answer : Trace -> Result A) (ev : Result A -> Event) : M A :=
  fun tr => let r := answer tr in (tr ++ [ev r], r).

Definition DataHandler : Type := Buffer -> M Buffer.
Definition IlpPrepareHandler : Type := IlpPrepare -> M IlpReply.

(** Everything [uplink.ts] imports or is handed: the ilp-packet codec, the
    default handlers of [./utils/packet], and the stateful collaborators,
    which answer from the history of calls. *)
Record World : Type := mkWorld {
  serializeIlpPrepare : IlpPrepare -> Result Buffer;
  deserializeIlpPrepare : Buffer -> Result IlpPrepare;
  serializeIlpReply : IlpReply -> Result Buffer;
  deserializeIlpReply : Buffer -> Result IlpReply;
  defaultDataHandler : DataHandler;
  defaultIlpPrepareHandler : IlpPrepareHandler;
  getOrCreateSettler : State -> SettlementEngineType -> Trace -> Result SettlementEngine;
  plugin_connect : Trace -> Result unit;
  plugin_disconnect : Trace -> Result unit;
  fetchAssetDetails : Trace -> Result AssetDetails;
  convert : AssetQuantity -> AssetUnit -> RateApi -> Trace -> Result Q;
  (** the server started, and the handlers it registered through the
      callback while starting *)
  startStreamServer : Buffer -> Trace -> Result (StreamServer * list DataHandler);
  stopStreamServer : StreamServer -> Trace -> Result unit;
  (** [pluginWrapper.payableBalance$.value] *)
  payableBalance_value : Trace -> Q;
  pluginWrapper_sendMoney : Q -> Trace -> Result unit;
  pluginWrapper_sendData : Buffer -> Trace -> Result Buffer
}.

Variable w : World.

(** The uplink once connected. The object returned by [connectUplink] is the
    [handlers] object itself ([Object.assign] returns its target), so the two
    handler slots below are the ones the installed data handler reads. *)
Record ReadyUplink : Type := mkReadyUplink {
  baseUplink : BaseUplink;
  pluginWrapper : PluginWrapperOpts;
  streamClientHandler : IlpPrepareHandler;
  streamServerHandler : DataHandler;
  clientAddress : string;
  maxInFlight : Q;
  tracker : Rx.Tracker;
  streamServer : StreamServer
}.

Definition incompatiblePeerError : Error :=
  mkError "Upstream connector is using a different asset or configuration".

Definition noPacketError : Error := mkError "no ilp packet included".

Definition incompatiblePeer (details : AssetDetails) (settler : SettlementEngine) : bool :=
  negb (String.eqb (peerAssetCode details) (assetCode settler))
  || negb (Z.eqb (peerAssetScale details) (assetScale settler)).

Definition verifyUpstreamAssetDetails (settler : SettlementEngine) : M string :=
  bind (call (fetchAssetDetails w) EvFetchAssetDetails) (fun details =>
  if incompatiblePeer details settler
  then bind (call (plugin_disconnect w) EvPluginDisconnect) (fun _ =>
       throw incompatiblePeerError)
  else ret (peerClientAddress details)).

Definition getNativeMaxInFlight (state : State) (ty : SettlementEngineType) : M Q :=
  bind (call (getOrCreateSettler w state ty) (EvGetOrCreateSettler ty)) (fun settler =>
  let dest := baseUnit settler tt in
  bind (call (convert w (maxInFlightUsd state) dest (rateBackend state))
             (EvConvert (maxInFlightUsd state) dest (rateBackend state))) (fun converted =>
  ret (dp0_ROUND_DOWN converted))).

(** The data handler that [setupHandlers] registers; [payload] is [None]
    when the plugin passes [undefined]. *)
Definition dataHandler (address : string) (serverHandler : DataHandler)
  (clientHandler : IlpPrepareHandler) (payload : option Buffer) : M Buffer :=
  match payload with
  | None => throw noPacketError
  | Some bytes =>
      bind (lift (deserializeIlpPrepare w bytes)) (fun prepare =>
      if hasConnectionTag address (destination prepare)
      then serverHandler bytes
      else bind (clientHandler prepare) (fun reply =>
           lift (serializeIlpReply w reply)))
  end.

Definition setupHandlers (address : string) (serverHandler : DataHandler)
  (clientHandler : IlpPrepareHandler) : M (option Buffer -> M Buffer) :=
  bind (call (fun _ => inr tt) (fun _ => EvDeregisterDataHandler)) (fun _ =>
  bind (call (fun _ => inr tt) (fun _ => EvRegisterDataHandler)) (fun _ =>
  ret (dataHandler address serverHandler clientHandler))).

(** The handler installed on the wrapper of a connected uplink: the closures
    [connectUplink] passes to [setupHandlers] read the slots of the object at
    the time of each delivery. *)
Definition installedHandler (uplink : ReadyUplink) : option Buffer -> M Buffer :=
  dataHandler (clientAddress uplink)
    (fun bytes => streamServerHandler uplink bytes)
    (fun prepare => streamClientHandler uplink prepare).

(** [registerServerHandler] of [connectUplink]. *)
Definition registerServerHandler (uplink : ReadyUplink) (handler : DataHandler) : ReadyUplink :=
  mkReadyUplink (baseUplink uplink) (pluginWrapper uplink) (streamClientHandler uplink)
    handler (clientAddress uplink) (maxInFlight uplink) (tracker uplink)
    (streamServer uplink).

Definition registerPacketHandler (handler : IlpPrepareHandler) (uplink : ReadyUplink)
  : ReadyUplink :=
  mkReadyUplink (baseUplink uplink) (pluginWrapper uplink) handler
    (streamServerHandler uplink) (clientAddress uplink) (maxInFlight uplink)
    (tracker uplink) (streamServer uplink).

Definition deregisterPacketHandler : ReadyUplink -> ReadyUplink :=
  registerPacketHandler (defaultIlpPrepareHandler w).

Definition connectUplink (state : State) (uplink : BaseUplink) (config : BaseUplinkConfig)
  : M ReadyUplink :=
  let ty := settlerType config in
  bind (call (getOrCreateSettler w state ty) (EvGetOrCreateSettler ty)) (fun settler =>
  bind (call (plugin_connect w) EvPluginConnect) (fun _ =>
  bind (verifyUpstreamAssetDetails settler) (fun address =>
  let observables :=
    Rx.wire (outgoingCapacity_ uplink) (incomingCapacity_ uplink) (totalReceived_ uplink) in
  bind (getNativeMaxInFlight state ty) (fun maxInFlight =>
  let opts := mkOpts maxInFlight maxInFlight (assetCode settler) (assetScale settler)
                ("switch-api:" ++ assetCode settler ++ ":balance") in
  bind (call (fun _ => inr tt) (fun _ => EvNewPluginWrapper opts)) (fun _ =>
  (* [handlers] starts with the two default handlers; the closures handed to
     [setupHandlers] read its slots at each delivery, and [handlers] is the
     object returned below: see [installedHandler]. *)
  bind (setupHandlers address (fun bytes => defaultDataHandler w bytes)
                      (fun prepare => defaultIlpPrepareHandler w prepare)) (fun _ =>
  bind (call (startStreamServer w (serverSecret config))
             (fun _ => EvStartStreamServer (serverSecret config))) (fun started =>
  let handlers :=
    mkReadyUplink uplink opts (defaultIlpPrepareHandler w) (defaultDataHandler w)
      address maxInFlight observables (fst started) in
  ret (fold_left registerServerHandler (snd started) handlers)))))))).

Definition logError (msg : string) (outcome : Result unit) : M unit :=
  match outcome with
  | inl err => call (fun _ => inr tt) (fun _ => EvLogError msg err)
  | inr _ => ret tt
  end.

(** [deserializeIlpReply(await pluginWrapper.sendData(serializeIlpPrepare(prepare)))] *)
Definition transmit (prepare : IlpPrepare) : M IlpReply :=
  bind (lift (serializeIlpPrepare w prepare)) (fun bytes =>
  bind (call (pluginWrapper_sendData w bytes) (EvSendData bytes)) (fun reply =>
  lift (deserializeIlpReply w reply))).

(** [sendPacket]. The settlement is requested first and not awaited; its
    rejection, if any, reaches the [catch] callback after the synchronous
    part of the function, that is after [sendData] has been called. *)
Definition sendPacket (uplink : ReadyUplink) (prepare : IlpPrepare) : M IlpReply :=
  fun tr0 =>
  let additionalPrefundRequired :=
    Qminus (payableBalance_value w tr0) (inject_Z (amount prepare)) in
  bind (settle (call (pluginWrapper_sendMoney w additionalPrefundRequired)
                     (EvSendMoney additionalPrefundRequired))) (fun settlement =>
  bind (settle (transmit prepare)) (fun outcome =>
  bind (logError "Error during outgoing settlement: " settlement) (fun _ =>
  lift outcome))) tr0.

Definition disconnect (uplink : ReadyUplink) : M unit :=
  bind (settle (call (stopStreamServer w (streamServer uplink))
                     (EvStopStreamServer (streamServer uplink)))) (fun stopped =>
  bind (logError "Error stopping Stream server: " stopped) (fun _ =>
  call (plugin_disconnect w) EvPluginDisconnect)).

(** The calls a computation adds to the trace, and its outcome. *)
Definition eventsOf {A : Type} (c : M A) (tr0 : Trace) : Trace :=
  skipn (List.length tr0) (fst (c tr0)).

Definition outcomeOf {A : Type} (c : M A) (tr0 : Trace) : Result A := snd (c tr0).

Definition isDisconnect (e : Event) : bool :=
  match e with EvPluginDisconnect _ => true | _ => false end.

Definition isConvert (e : Event) : bool :=
  match e with EvConvert _ _ _ _ => true | _ => false end.

Definition isNewPluginWrapper (e : Event) : bool :=
  match e with EvNewPluginWrapper _ => true | _ => false end.

Definition isSendMoney (e : Event) : bool :=
  match e with EvSendMoney _ _ => true | _ => false end.

(** [sendMoney] was invoked with a strictly positive value. *)
Definition requestsPositiveSettlement (events : Trace) : bool :=
  existsb (fun e => match e with
                    | EvSendMoney requested _ => negb (Qle_bool requested 0)
                    | _ => false
                    end) events.

(** What happens to a connected uplink between two deliveries. *)
Inductive Action : Type :=
| RegisterPacketHandler (handler : IlpPrepareHandler)
| DeregisterPacketHandler
| RegisterServerHandler (handler : DataHandler).

Definition act (uplink : ReadyUplink) (a : Action) : ReadyUplink :=
  match a with
  | RegisterPacketHandler handler => registerPacketHandler handler uplink
  | DeregisterPacketHandler => deregisterPacketHandler uplink
  | RegisterServerHandler handler => registerServerHandler uplink handler
  end.

Definition isRegisterPacketHandler (a : Action) : bool :=
  match a with RegisterPacketHandler _ => true | _ => false end.

(** The options of the wrapper of an uplink of [settler] with [native] as
    its limit, as [connectUplink] builds them. *)
Definition wrapperOptsFor (settler : SettlementEngine) (native : Q) : PluginWrapperOpts :=
  mkOpts native native (assetCode settler) (assetScale settler)
         ("switch-api:" ++ assetCode settler ++ ":balance").

(** The runs of [connectUplink]: the calls it makes, in order and with their
    outcomes, and its own outcome. *)
Inductive ConnectRun (state : State) (base : BaseUplink) (config : BaseUplinkConfig)
  : Trace -> Result ReadyUplink -> Prop :=
| RunNoSettler (err : Error) :
    ConnectRun state base config
      [EvGetOrCreateSettler (settlerType config) (inl err)] (inl err)
| RunNoConnection (settler : SettlementEngine) (err : Error) :
    ConnectRun state base config
      [EvGetOrCreateSettler (settlerType config) (inr settler);
       EvPluginConnect (inl err)] (inl err)
| RunNoHandshake (settler : SettlementEngine) (err : Error) :
    ConnectRun state base config
      [EvGetOrCreateSettler (settlerType config) (inr settler);
       EvPluginConnect (inr tt);
       EvFetchAssetDetails (inl err)] (inl err)
| RunIncompatible (settler : SettlementEngine) (details : AssetDetails)
    (disconnected : Result unit) :
    incompatiblePeer details settler = true ->
    ConnectRun state base config
      [EvGetOrCreateSettler (settlerType config) (inr settler);
       EvPluginConnect (inr tt);
       EvFetchAssetDetails (inr details);
       EvPluginDisconnect disconnected]
      (inl (match disconnected with
            | inl err => err
            | inr _ => incompatiblePeerError
            end))
| RunNoSettlerAgain (settler : SettlementEngine) (details : AssetDetails) (err : Error) :
    incompatiblePeer details settler = false ->
    ConnectRun state base config
      [EvGetOrCreateSettler (settlerType config) (inr settler);
       EvPluginConnect (inr tt);
       EvFetchAssetDetails (inr details);
       EvGetOrCreateSettler (settlerType config) (inl err)] (inl err)
| RunNoRate (settler : SettlementEngine) (details : AssetDetails)
    (settler' : SettlementEngine) (err : Error) :
    incompatiblePeer details settler = false ->
    ConnectRun state base config
      [EvGetOrCreateSettler (settlerType config) (inr settler);
       EvPluginConnect (inr tt);
       EvFetchAssetDetails (inr details);
       EvGetOrCreateSettler (settlerType config) (inr settler');
       EvConvert (maxInFlightUsd state) (baseUnit settler' tt) (rateBackend state)
                 (inl err)] (inl err)
| RunNoServer (settler : SettlementEngine) (details : AssetDetails)
    (settler' : SettlementEngine) (converted : Q) (err : Error) :
    incompatiblePeer details settler = false ->
    ConnectRun state base config
      [EvGetOrCreateSettler (settlerType config) (inr settler);
       EvPluginConnect (inr tt);
       EvFetchAssetDetails (inr details);
       EvGetOrCreateSettler (settlerType config) (inr settler');
       EvConvert (maxInFlightUsd state) (baseUnit settler' tt) (rateBackend state)
                 (inr converted);
       EvNewPluginWrapper (wrapperOptsFor settler (dp0_ROUND_DOWN converted));
       EvDeregisterDataHandler;
       EvRegisterDataHandler;
       EvStartStreamServer (serverSecret config)] (inl err)
| RunReady (settler : SettlementEngine) (details : AssetDetails)
    (settler' : SettlementEngine) (converted : Q) (server : StreamServer)
    (registered : list DataHandler) :
    incompatiblePeer details settler = false ->
    ConnectRun state base config
      [EvGetOrCreateSettler (settlerType config) (inr settler);
       EvPluginConnect (inr tt);
       EvFetchAssetDetails (inr details);
       EvGetOrCreateSettler (settlerType config) (inr settler');
       EvConvert (maxInFlightUsd state) (baseUnit settler' tt) (rateBackend state)
                 (inr converted);
       EvNewPluginWrapper (wrapperOptsFor settler (dp0_ROUND_DOWN converted));
       EvDeregisterDataHandler;
       EvRegisterDataHandler;
       EvStartStreamServer (serverSecret config)]
      (inr (fold_left registerServerHandler registered
              (mkReadyUplink base (wrapperOptsFor settler (dp0_ROUND_DOWN converted))
                 (defaultIlpPrepareHandler w) (defaultDataHandler w)
                 (peerClientAddress details) (dp0_ROUND_DOWN converted)
                 (Rx.wire (outgoingCapacity_ base) (incomingCapacity_ base)
                          (totalReceived_ base))
                 server))).

Definition isSendData (e : Event) : bool :=
  match e with EvSendData _ _ => true | _ => false end.

Definition leavesServerHandler (a : Action) : bool :=
  match a with RegisterServerHandler _ => false | _ => true end.

Definition leavesPacketHandler (a : Action) : bool :=
  match a with RegisterServerHandler _ => true | _ => false end.

(** A destination none of whose dot-separated segments is empty, as in every
    valid ILP address. *)
Definition wellFormedAddress (dest : string) : bool :=
  forallb JsString.truthy (JsString.split "."%char dest).

End Uplink.

(** ** Concrete uplinks for the scenarios of the specification *)

Module Scenario.

Local Open Scope string_scope.

#[local] Instance types : ExternalTypes := {|
  SettlementEngineType := string;
  AssetQuantity := Q;
  AssetUnit := string;
  RateApi := Q;
  StreamServer := nat;
  SimpleStore := unit
|}.

(** What the collaborators answer in a scenario. *)
Record Setup : Type := mkSetup {
  peer : AssetDetails;
  disconnecting : Result unit;
  stopping : Result unit;
  payable : Q;
  settling : Result unit;
  converted : Q
}.

Definition xrpSettler : SettlementEngine := mkSettler "XRP" 9 (fun _ => "drop").

Definition xrpPeer : AssetDetails := mkAssetDetails "XRP" 9 "g.kava.abc123".
Definition ethPeer : AssetDetails := mkAssetDetails "ETH" 9 "g.kava.abc123".

Definition rejectF02 : IlpReply := IlpReject "F02" "" "" [].

Definition serverReply : Buffer := list_byte_of_string "stream".

Definition world (s : Setup) : World := {|
  serializeIlpPrepare := fun p => inr (list_byte_of_string (destination p));
  deserializeIlpPrepare := fun bytes => inr (mkPrepare (string_of_list_byte bytes) 0 [] 0 []);
  serializeIlpReply := fun r =>
    inr (match r with
         | IlpFulfill f _ => f
         | IlpReject c _ _ _ => list_byte_of_string c
         end);
  deserializeIlpReply := fun bytes => inr (IlpFulfill bytes []);
  defaultDataHandler := fun _ => throw (mkError "No handler registered");
  defaultIlpPrepareHandler := fun _ => ret rejectF02;
  getOrCreateSettler := fun _ _ _ => inr xrpSettler;
  plugin_connect := fun _ => inr tt;
  plugin_disconnect := fun _ => disconnecting s;
  fetchAssetDetails := fun _ => inr (peer s);
  convert := fun _ _ _ _ => inr (converted s);
  startStreamServer := fun _ _ => inr (7%nat, [fun _ => ret serverReply]);
  stopStreamServer := fun _ _ => stopping s;
  payableBalance_value := fun _ => payable s;
  pluginWrapper_sendMoney := fun _ _ => settling s;
  pluginWrapper_sendData := fun bytes _ => inr bytes
|}.

Definition state : State := mkState (5 # 100) (3 # 1).

Definition config : BaseUplinkConfig := mkConfig "xrp-paychan" [] tt.

(** Scenario A: outgoing capacity 10, total received 5. *)
Definition base : BaseUplink :=
  mkBaseUplink "xrp-paychan" "rPEER"
    (Rx.newSubject 10) (Rx.newSubject 0) (Rx.newSubject 5) (Rx.newSubject 0).

Definition ok : Result unit := inr tt.
Definition failed (msg : string) : Result unit := inl (mkError msg).

Definition compatible : Setup := mkSetup xrpPeer ok ok 30 ok (1234567 # 1000).

(** Scenario B: the peer reports ETH to an XRP settler. *)
Definition incompatible : Setup := mkSetup ethPeer ok ok 30 ok (1234567 # 1000).

Definition incompatibleStuck : Setup :=
  mkSetup ethPeer (failed "socket already closed") ok 30 ok (1234567 # 1000).

(** The uplink that [connectUplink] resolves with in the compatible setup. *)
Definition uplink : ReadyUplink :=
  mkReadyUplink base
    (mkOpts (1234 # 1) (1234 # 1) "XRP" 9 "switch-api:XRP:balance")
    (fun _ => ret rejectF02) (fun _ => ret serverReply)
    "g.kava.abc123" (1234 # 1)
    (Rx.wire (Rx.newSubject 10) (Rx.newSubject 0) (Rx.newSubject 5)) 7%nat.

Definition prepareTo (dest : string) (value : Z) : IlpPrepare :=
  mkPrepare dest value [] 0 [].

(** A payable balance of 100. *)
Definition owing : Setup := mkSetup xrpPeer ok ok 100 ok (1234567 # 1000).

(** A payable balance of 0. *)
Definition fresh : Setup := mkSetup xrpPeer ok ok 0 ok (1234567 # 1000).

(** The wrapper fails to settle. *)
Definition unsettled : Setup :=
  mkSetup xrpPeer ok ok 130 (failed "no channel to settle") (1234567 # 1000).

(** The STREAM server fails to stop and the transport to disconnect. *)
Definition stuck : Setup :=
  mkSetup xrpPeer (failed "socket already closed") (failed "server already closed")
          30 ok (1234567 # 1000).

Definition fulfilling : IlpPrepareHandler :=
  fun _ => ret (IlpFulfill (list_byte_of_string "preimage") []).

(** A world whose codec refuses every Prepare, both ways. *)
Definition refusing (s : Setup) : World := {|
  serializeIlpPrepare := fun _ => inl (mkError "amount out of range");
  deserializeIlpPrepare := fun _ => inl (mkError "not a prepare");
  serializeIlpReply := serializeIlpReply (world s);
  deserializeIlpReply := deserializeIlpReply (world s);
  defaultDataHandler := defaultDataHandler (world s);
  defaultIlpPrepareHandler := defaultIlpPrepareHandler (world s);
  getOrCreateSettler := getOrCreateSettler (world s);
  plugin_connect := plugin_connect (world s);
  plugin_disconnect := plugin_disconnect (world s);
  fetchAssetDetails := fetchAssetDetails (world s);
  convert := convert (world s);
  startStreamServer := startStreamServer (world s);
  stopStreamServer := stopStreamServer (world s);
  payableBalance_value := payableBalance_value (world s);
  pluginWrapper_sendMoney := pluginWrapper_sendMoney (world s);
  pluginWrapper_sendData := pluginWrapper_sendData (world s)
|}.

(** A world whose STREAM server fails to start. *)
Definition serverless (s : Setup) : World := {|
  serializeIlpPrepare := serializeIlpPrepare (world s);
  deserializeIlpPrepare := deserializeIlpPrepare (world s);
  serializeIlpReply := serializeIlpReply (world s);
  deserializeIlpReply := deserializeIlpReply (world s);
  defaultDataHandler := defaultDataHandler (world s);
  defaultIlpPrepareHandler := defaultIlpPrepareHandler (world s);
  getOrCreateSettler := getOrCreateSettler (world s);
  plugin_connect := plugin_connect (world s);
  plugin_disconnect := plugin_disconnect (world s);
  fetchAssetDetails := fetchAssetDetails (world s);
  convert := convert (world s);
  startStreamServer := fun _ _ => inl (mkError "port in use");
  stopStreamServer := stopStreamServer (world s);
  payableBalance_value := payableBalance_value (world s);
  pluginWrapper_sendMoney := pluginWrapper_sendMoney (world s);
  pluginWrapper_sendData := pluginWrapper_sendData (world s)
|}.

End Scenario.

(** ** Facts about the string operations and the tracker *)

Module JsStringFacts.

Import JsString.
Local Open Scope string_scope.

Lemma prefix_refl (s : string) : prefix s s = true.
Proof.
  induction s as [|c s IH]; simpl; [reflexivity|].
  destruct (ascii_dec c c) as [_|ne]; [exact IH | contradiction ne; reflexivity].
Qed.

Lemma drop_all (s : string) : drop (length s) s = EmptyString.
Proof. induction s as [|c s IH]; simpl; auto. Qed.

Lemma replace_self (s : string) : replace s "" s = "".
Proof.
  destruct s as [|c s]; [reflexivity|].
  unfold replace; fold replace.
  rewrite prefix_refl. simpl. apply drop_all.
Qed.

Lemma prefix_append (s rest : string) : prefix s (s ++ rest) = true.
Proof.
  induction s as [|c s IH]; simpl; [destruct rest; reflexivity|].
  destruct (ascii_dec c c) as [_|ne]; [exact IH | contradiction ne; reflexivity].
Qed.

Lemma drop_append (s rest : string) : drop (length s) (s ++ rest) = rest.
Proof. induction s as [|c s IH]; simpl; auto. Qed.

Lemma replace_at_prefix (pat rep s : string) :
  prefix pat s = true -> replace pat rep s = rep ++ drop (length pat) s.
Proof. intros H. destruct s; cbn [replace]; rewrite H; reflexivity. Qed.

Lemma replace_leading (s rest : string) : replace s "" (s ++ rest) = rest.
Proof.
  rewrite replace_at_prefix by apply prefix_append.
  simpl. apply drop_append.
Qed.

Lemma replace_absent (pat rep s : string) :
  includes pat s = false -> replace pat rep s = s.
Proof.
  induction s as [|c s IH]; cbn [includes replace]; intros H.
  - destruct (prefix pat ""); [discriminate | reflexivity].
  - destruct (prefix pat (String c s)); [discriminate|].
    rewrite IH; auto.
Qed.

Lemma split_not_nil (sep : ascii) (s : string) : split sep s <> [].
Proof.
  destruct s as [|c s]; simpl; [discriminate|].
  destruct (Ascii.eqb c sep); [discriminate|].
  destruct (split sep s); discriminate.
Qed.

Lemma forallb_some {A : Type} (f : A -> bool) (xs : list A) :
  xs <> [] -> forallb f xs = true -> some f xs = true.
Proof.
  destruct xs as [|x xs]; [congruence|].
  simpl. intros _ H. apply andb_true_iff in H. destruct H as [-> _]. reflexivity.
Qed.

End JsStringFacts.

Module RxFacts.

Import Rx.

(** The invariant of the tracker: both inputs of [combineLatest] hold a
    value, [balance_] is live and holds their sum. *)
Definition balanced (lo lr : BigNumber) (t : Tracker) : Prop :=
  combined t = [Some lo; Some lr]
  /\ value (balance_ t) = Qplus lo lr
  /\ hasError (balance_ t) = false.

Lemma wire_balanced (oc ic tr : BehaviorSubject) :
  balanced (value oc) (value tr) (wire oc ic tr).
Proof. repeat split. Qed.

Lemma emit_balanced (lo lr : BigNumber) (t : Tracker) (e : Emission) :
  balanced lo lr t ->
  balanced (latestOutgoingCapacity lo [e]) (latestTotalReceived lr [e]) (emit t e).
Proof.
  intros (Hc & Hv & He).
  destruct e as [v|v|v]; unfold balanced, emit, deliver; simpl;
    rewrite ?Hc; simpl; unfold next; rewrite ?He; simpl; auto.
Qed.

Lemma run_balanced (es : list Emission) :
  forall (lo lr : BigNumber) (t : Tracker),
    balanced lo lr t ->
    balanced (latestOutgoingCapacity lo es) (latestTotalReceived lr es) (run t es).
Proof.
  induction es as [|e es IH]; intros lo lr t H; [exact H|].
  apply (IH _ _ _ (emit_balanced e H)).
Qed.

Lemma run_snoc (t : Tracker) (es : list Emission) (e : Emission) :
  run t (es ++ [e]) = emit (run t es) e.
Proof. unfold run. rewrite fold_left_app. reflexivity. Qed.

Lemma emit_emitted (lo lr : BigNumber) (t : Tracker) (e : Emission) :
  balanced lo lr t ->
  emitted (balance_ (emit t e)) =
  if feedsBalance e
  then emitted (balance_ t) ++
       [Qplus (latestOutgoingCapacity lo [e]) (latestTotalReceived lr [e])]
  else emitted (balance_ t).
Proof.
  intros (Hc & Hv & He).
  destruct e as [v|v|v]; unfold emit, deliver; simpl;
    rewrite ?Hc; simpl; unfold next; rewrite ?He; simpl; auto.
Qed.

Lemma latestOutgoingCapacity_snoc (v0 : BigNumber) (es : list Emission) (e : Emission) :
  latestOutgoingCapacity v0 (es ++ [e]) =
  latestOutgoingCapacity (latestOutgoingCapacity v0 es) [e].
Proof. unfold latestOutgoingCapacity. rewrite fold_left_app. reflexivity. Qed.

Lemma latestTotalReceived_snoc (v0 : BigNumber) (es : list Emission) (e : Emission) :
  latestTotalReceived v0 (es ++ [e]) =
  latestTotalReceived (latestTotalReceived v0 es) [e].
Proof. unfold latestTotalReceived. rewrite fold_left_app. reflexivity. Qed.

End RxFacts.

(** ** Properties of the uplink *)

Section Properties.

Context {types : ExternalTypes}.
Variable w : World.

Lemma skipn_app_exact {A : Type} (l x : list A) : skipn (List.length l) (l ++ x) = x.
Proof. induction l as [|a l IH]; simpl; auto. Qed.

Lemma registered_fields (handlers : list DataHandler) :
  forall uplink : ReadyUplink,
    let final := fold_left registerServerHandler handlers uplink in
    baseUplink final = baseUplink uplink
    /\ pluginWrapper final = pluginWrapper uplink
    /\ streamClientHandler final = streamClientHandler uplink
    /\ clientAddress final = clientAddress uplink
    /\ maxInFlight final = maxInFlight uplink
    /\ tracker final = tracker uplink
    /\ streamServer final = streamServer uplink.
Proof.
  induction handlers as [|h hs IH]; intros uplink; simpl.
  - repeat split.
  - apply (IH (registerServerHandler uplink h)).
Qed.

(** The calls of a [connectUplink] that resolves, in order, and the uplink
    it resolves with. *)
Lemma connectUplink_resolved (state : State) (base : BaseUplink)
  (config : BaseUplinkConfig) (tr0 tr1 : Trace) (uplink : ReadyUplink) :
  connectUplink w state base config tr0 = (tr1, inr uplink) ->
  exists settler details settler' converted server handlers,
    let ty := settlerType config in
    let native := dp0_ROUND_DOWN converted in
    let opts := mkOpts native native (assetCode settler) (assetScale settler)
                  ("switch-api:" ++ assetCode settler ++ ":balance") in
    tr1 = tr0 ++ [EvGetOrCreateSettler ty (inr settler);
                  EvPluginConnect (inr tt);
                  EvFetchAssetDetails (inr details);
                  EvGetOrCreateSettler ty (inr settler');
                  EvConvert (maxInFlightUsd state) (baseUnit settler' tt)
                            (rateBackend state) (inr converted);
                  EvNewPluginWrapper opts;
                  EvDeregisterDataHandler;
                  EvRegisterDataHandler;
                  EvStartStreamServer (serverSecret config)]
    /\ incompatiblePeer details settler = false
    /\ uplink = fold_left registerServerHandler handlers
                  (mkReadyUplink base opts (defaultIlpPrepareHandler w)
                     (defaultDataHandler w) (peerClientAddress details) native
                     (Rx.wire (outgoingCapacity_ base) (incomingCapacity_ base)
                              (totalReceived_ base))
                     server).
Proof.
  unfold connectUplink, verifyUpstreamAssetDetails, getNativeMaxInFlight,
    setupHandlers, bind, call, ret, throw.
  destruct (getOrCreateSettler w state (settlerType config) tr0)
    as [err|settler]; [discriminate|].
  destruct (plugin_connect w _) as [err|[]]; [discriminate|].
  destruct (fetchAssetDetails w _) as [err|details]; [discriminate|].
  destruct (incompatiblePeer details settler) eqn:E4.
  { destruct (plugin_disconnect w _); discriminate. }
  destruct (getOrCreateSettler w state (settlerType config) _)
    as [err|settler']; [discriminate|].
  destruct (convert w _ _ _ _) as [err|converted]; [discriminate|].
  destruct (startStreamServer w _ _) as [err|[server handlers]]; [discriminate|].
  intros H. inversion H; subst; clear H.
  exists settler, details, settler', converted, server, handlers.
  cbv zeta. repeat rewrite <- app_assoc. simpl. auto.
Qed.

Lemma connectUplink_events (state : State) (base : BaseUplink)
  (config : BaseUplinkConfig) (tr0 tr1 : Trace) (uplink : ReadyUplink) :
  connectUplink w state base config tr0 = (tr1, inr uplink) ->
  tr1 = tr0 ++ eventsOf (connectUplink w state base config) tr0.
Proof.
  intros H. destruct (connectUplink_resolved _ _ _ _ H)
    as (s1 & d & s2 & c & sv & hs & Htr & _).
  cbv zeta in Htr. unfold eventsOf. rewrite H. simpl fst.
  rewrite Htr at 2. rewrite skipn_app_exact. exact Htr.
Qed.

Lemma dp0_ROUND_DOWN_integer (x : Q) : Qden (dp0_ROUND_DOWN x) = 1%positive.
Proof. reflexivity. Qed.

Lemma dp0_ROUND_DOWN_floor (x : Q) :
  (0 <= x)%Q -> dp0_ROUND_DOWN x = inject_Z (Qfloor x).
Proof.
  destruct x as [n d]. unfold Qle, dp0_ROUND_DOWN, Qfloor. simpl. intros H.
  rewrite Z.quot_div_nonneg; [reflexivity | lia | lia].
Qed.

Lemma dp0_ROUND_DOWN_ceiling (x : Q) :
  (x <= 0)%Q -> dp0_ROUND_DOWN x = inject_Z (Qceiling x).
Proof.
  destruct x as [n d]. unfold Qle, dp0_ROUND_DOWN, Qceiling, Qfloor, Qopp. simpl.
  intros H. f_equal.
  rewrite <- (Z.opp_involutive n) at 1.
  rewrite Z.quot_opp_l by lia.
  rewrite Z.quot_div_nonneg; [reflexivity | lia | lia].
Qed.

(** C1. For every uplink that [connectUplink] resolves with, whatever values
    the sources emit afterwards, [balance_] holds the latest outgoing
    capacity plus the latest total received, and every emission of one of
    these two sources makes [balance_] emit exactly that sum. *)
Theorem balance_is_sum_of_latest (state : State) (base : BaseUplink)
  (config : BaseUplinkConfig) (tr0 tr1 : Trace) (uplink : ReadyUplink)
  (es : list Rx.Emission) :
  connectUplink w state base config tr0 = (tr1, inr uplink) ->
  let latestOutgoing := Rx.latestOutgoingCapacity (Rx.value (outgoingCapacity_ base)) in
  let latestReceived := Rx.latestTotalReceived (Rx.value (totalReceived_ base)) in
  Rx.value (Rx.balance_ (Rx.run (tracker uplink) es))
  = Qplus (latestOutgoing es) (latestReceived es)
  /\ forall e : Rx.Emission,
       Rx.feedsBalance e = true ->
       Rx.emitted (Rx.balance_ (Rx.run (tracker uplink) (es ++ [e])))
       = Rx.emitted (Rx.balance_ (Rx.run (tracker uplink) es))
         ++ [Qplus (latestOutgoing (es ++ [e])) (latestReceived (es ++ [e]))].
Proof.
  intros H latestOutgoing latestReceived.
  destruct (connectUplink_resolved _ _ _ _ H)
    as (s1 & d & s2 & c & sv & hs & _ & _ & Hup).
  cbv zeta in Hup.
  assert (Ht : tracker uplink
               = Rx.wire (outgoingCapacity_ base) (incomingCapacity_ base)
                         (totalReceived_ base)).
  { rewrite Hup.
    match goal with |- tracker (fold_left _ _ ?u) = _ =>
      destruct (registered_fields hs u) as (_ & _ & _ & _ & _ & Hf & _) end.
    exact Hf. }
  rewrite Ht.
  pose proof (RxFacts.run_balanced es
                (RxFacts.wire_balanced (outgoingCapacity_ base) (incomingCapacity_ base)
                                       (totalReceived_ base))) as Hb.
  split.
  - destruct Hb as (_ & Hv & _). exact Hv.
  - intros e He. rewrite RxFacts.run_snoc.
    rewrite (RxFacts.emit_emitted e Hb), He.
    unfold latestOutgoing, latestReceived.
    rewrite RxFacts.latestOutgoingCapacity_snoc, RxFacts.latestTotalReceived_snoc.
    reflexivity.
Qed.

(** C6. A [connectUplink] that resolves converts the USD ceiling to the base
    unit of the settler exactly once; [maxInFlight] is that amount truncated
    to an integer (its floor, for a ceiling that is not negative), and the one
    wrapper it constructs gets this value as both [maxBalance] and
    [maxPacketAmount]. *)
Theorem maxInFlight_fixed_at_connection (state : State) (base : BaseUplink)
  (config : BaseUplinkConfig) (tr0 tr1 : Trace) (uplink : ReadyUplink) :
  connectUplink w state base config tr0 = (tr1, inr uplink) ->
  let events := eventsOf (connectUplink w state base config) tr0 in
  exists (settler : SettlementEngine) (converted : Q),
    In (EvGetOrCreateSettler (settlerType config) (inr settler)) events
    /\ filter isConvert events
       = [EvConvert (maxInFlightUsd state) (baseUnit settler tt) (rateBackend state)
                    (inr converted)]
    /\ maxInFlight uplink = dp0_ROUND_DOWN converted
    /\ Qden (maxInFlight uplink) = 1%positive
    /\ ((0 <= converted)%Q -> maxInFlight uplink = inject_Z (Qfloor converted))
    /\ ((converted <= 0)%Q -> maxInFlight uplink = inject_Z (Qceiling converted))
    /\ filter isNewPluginWrapper events = [EvNewPluginWrapper (pluginWrapper uplink)]
    /\ maxBalance (pluginWrapper uplink) = maxInFlight uplink
    /\ maxPacketAmount (pluginWrapper uplink) = maxInFlight uplink.
Proof.
  intros H events.
  pose proof (connectUplink_events _ _ _ _ H) as Hev. fold events in Hev.
  destruct (connectUplink_resolved _ _ _ _ H)
    as (s1 & d & s2 & c & sv & hs & Htr & _ & Hup).
  cbv zeta in Htr, Hup.
  rewrite Htr in Hev. apply app_inv_head in Hev.
  match type of Hup with _ = fold_left _ _ ?u =>
    destruct (registered_fields hs u) as (_ & Hw & _ & _ & Hm & _ & _) end.
  rewrite <- Hup in Hw, Hm. simpl in Hw, Hm.
  exists s2, c. rewrite <- Hev, Hw, Hm. simpl.
  repeat split; auto.
  - apply dp0_ROUND_DOWN_floor.
  - apply dp0_ROUND_DOWN_ceiling.
Qed.

Ltac tidy_trace :=
  cbn [fst snd]; repeat rewrite <- app_assoc; rewrite ?skipn_app_exact; cbn [app].

Ltac tidy_trace_in H :=
  cbn [fst snd] in H; repeat rewrite <- app_assoc in H;
  rewrite ?skipn_app_exact in H; cbn [app] in H.

Ltac split_In H :=
  cbn [In] in H;
  repeat (destruct H as [H|H]; [try discriminate H|]); try contradiction H.

(** C4, as amended. When the settler is resolved and the handshake answers
    with an asset code or scale that differs from the settler's,
    [connectUplink] calls [plugin.disconnect] exactly once, as its last call,
    and rejects: with the incompatible-peer error when the disconnect
    succeeded, with the error of the disconnect when it failed. No uplink is
    produced. *)
Theorem incompatible_peer_disconnects_then_rejects (state : State) (base : BaseUplink)
  (config : BaseUplinkConfig) (tr0 : Trace) (settler : SettlementEngine)
  (details : AssetDetails) :
  getOrCreateSettler w state (settlerType config) tr0 = inr settler ->
  In (EvFetchAssetDetails (inr details)) (eventsOf (connectUplink w state base config) tr0) ->
  incompatiblePeer details settler = true ->
  exists (before : Trace) (disconnected : Result unit),
    eventsOf (connectUplink w state base config) tr0
    = before ++ [EvPluginDisconnect disconnected]
    /\ filter isDisconnect before = []
    /\ outcomeOf (connectUplink w state base config) tr0
       = inl (match disconnected with
              | inl err => err
              | inr _ => incompatiblePeerError
              end).
Proof.
  unfold eventsOf, outcomeOf, connectUplink, verifyUpstreamAssetDetails,
    getNativeMaxInFlight, setupHandlers, bind, call, ret, throw.
  intros Hs. rewrite Hs. clear Hs.
  destruct (plugin_connect w _) as [err|[]].
  { intros Hin. tidy_trace_in Hin. split_In Hin. }
  destruct (fetchAssetDetails w _) as [err|details'].
  { intros Hin. tidy_trace_in Hin. split_In Hin. }
  destruct (incompatiblePeer details' settler) eqn:E.
  - intros _ _.
    match goal with |- context [plugin_disconnect w ?t] =>
      destruct (plugin_disconnect w t) as [err|[]] eqn:Ed end.
    + eexists [_; _; _], (inl err). tidy_trace. repeat split.
    + eexists [_; _; _], (inr tt). tidy_trace. repeat split.
  - assert (Hno : forall events : Trace,
               In (EvFetchAssetDetails (inr details))
                  ([EvGetOrCreateSettler (settlerType config) (inr settler);
                    EvPluginConnect (inr tt);
                    EvFetchAssetDetails (inr details')] ++ events) ->
               (forall e, In e events -> e <> EvFetchAssetDetails (inr details)) ->
               incompatiblePeer details settler = true -> False).
    { intros events Hin Hother Hbad. cbn [app] in Hin. cbn [In] in Hin.
      destruct Hin as [Hin|[Hin|[Hin|Hin]]]; try discriminate Hin.
      - injection Hin as <-. congruence.
      - exact (Hother _ Hin eq_refl). }
    destruct (getOrCreateSettler w state (settlerType config) _) as [err|settler'].
    { intros Hin Hbad. exfalso. tidy_trace_in Hin.
      eapply Hno; [exact Hin| |exact Hbad]. intros e He. split_In He; subst e; discriminate. }
    destruct (convert w _ _ _ _) as [err|converted].
    { intros Hin Hbad. exfalso. tidy_trace_in Hin.
      eapply Hno; [exact Hin| |exact Hbad]. intros e He. split_In He; subst e; discriminate. }
    destruct (startStreamServer w _ _) as [err|[server handlers]].
    { intros Hin Hbad. exfalso. tidy_trace_in Hin.
      eapply Hno; [exact Hin| |exact Hbad]. intros e He. split_In He; subst e; discriminate. }
    intros Hin Hbad. exfalso. tidy_trace_in Hin.
    eapply Hno; [exact Hin| |exact Hbad]. intros e He. split_In He; subst e; discriminate.
Qed.

(** What [setupHandlers] registers when it is handed closures over the slots
    of an uplink is the installed handler of that uplink. *)
Lemma setupHandlers_installs (uplink : ReadyUplink) (tr0 : Trace) :
  setupHandlers w (clientAddress uplink)
    (fun bytes => streamServerHandler uplink bytes)
    (fun prepare => streamClientHandler uplink prepare) tr0
  = (tr0 ++ [EvDeregisterDataHandler; EvRegisterDataHandler],
     inr (installedHandler w uplink)).
Proof.
  unfold setupHandlers, bind, call, ret. cbn. rewrite <- app_assoc. reflexivity.
Qed.

Lemma own_address_has_no_tag (address : string) : hasConnectionTag address address = false.
Proof. unfold hasConnectionTag. rewrite JsStringFacts.replace_self. reflexivity. Qed.

Lemma dataHandler_parsed (address : string) (serverHandler : DataHandler)
  (clientHandler : IlpPrepareHandler) (bytes : Buffer) (prepare : IlpPrepare) :
  deserializeIlpPrepare w bytes = inr prepare ->
  dataHandler w address serverHandler clientHandler (Some bytes)
  = if hasConnectionTag address (destination prepare)
    then serverHandler bytes
    else bind (clientHandler prepare) (fun reply => lift (serializeIlpReply w reply)).
Proof.
  intros H. unfold dataHandler, bind at 1, lift at 1. rewrite H.
  destruct (hasConnectionTag address (destination prepare)); reflexivity.
Qed.

Lemma router_dispatch_parsed (uplink : ReadyUplink) (bytes : Buffer) (prepare : IlpPrepare) :
  deserializeIlpPrepare w bytes = inr prepare ->
  (destination prepare = clientAddress uplink ->
   installedHandler w uplink (Some bytes)
   = bind (streamClientHandler uplink prepare)
          (fun reply => lift (serializeIlpReply w reply)))
  /\ (hasConnectionTag (clientAddress uplink) (destination prepare) = true ->
      installedHandler w uplink (Some bytes) = streamServerHandler uplink bytes).
Proof.
  intros H. unfold installedHandler. rewrite (dataHandler_parsed _ _ _ _ H).
  split.
  - intros ->. rewrite own_address_has_no_tag. reflexivity.
  - intros ->. reflexivity.
Qed.

Lemma tagged_address_has_tag (address tag : string) :
  JsString.some JsString.truthy (JsString.split "."%char tag) = true ->
  hasConnectionTag address (address ++ "." ++ tag) = true.
Proof.
  intros H. unfold hasConnectionTag. rewrite JsStringFacts.replace_leading.
  simpl. exact H.
Qed.

(** C5. A payload that parses as a Prepare for exactly the client address of
    the uplink is handed, parsed, to the client handler, whose Reply is
    serialized and returned; one whose destination keeps a non-empty segment
    once the client address is stripped (as when the client address is
    followed by a dot and a tag with a non-empty segment) is handed, as
    received, to the server handler, whose answer is returned as it is. *)
Theorem router_dispatch (uplink : ReadyUplink) (bytes : Buffer) (prepare : IlpPrepare) :
  deserializeIlpPrepare w bytes = inr prepare ->
  (destination prepare = clientAddress uplink ->
   installedHandler w uplink (Some bytes)
   = bind (streamClientHandler uplink prepare)
          (fun reply => lift (serializeIlpReply w reply)))
  /\ (JsString.some JsString.truthy
        (JsString.split "."%char
           (JsString.replace (clientAddress uplink) EmptyString (destination prepare)))
      = true ->
      installedHandler w uplink (Some bytes) = streamServerHandler uplink bytes)
  /\ (forall tag : string,
        JsString.some JsString.truthy (JsString.split "."%char tag) = true ->
        destination prepare = (clientAddress uplink ++ "." ++ tag)%string ->
        installedHandler w uplink (Some bytes) = streamServerHandler uplink bytes).
Proof.
  intros H. destruct (router_dispatch_parsed uplink bytes H) as [Hclient Hserver].
  split; [exact Hclient|]. split; [exact Hserver|].
  intros tag Htag Hdest. apply Hserver. rewrite Hdest.
  apply tagged_address_has_tag. exact Htag.
Qed.

(** C10. A payload that parses as a Prepare whose destination has no empty
    segment and does not contain the client address of the uplink is handed,
    as received, to the server handler: stripping the client address leaves
    the destination as it was. *)
Theorem foreign_destination_goes_to_server (uplink : ReadyUplink) (bytes : Buffer)
  (prepare : IlpPrepare) :
  deserializeIlpPrepare w bytes = inr prepare ->
  wellFormedAddress (destination prepare) = true ->
  JsString.includes (clientAddress uplink) (destination prepare) = false ->
  JsString.replace (clientAddress uplink) EmptyString (destination prepare)
  = destination prepare
  /\ installedHandler w uplink (Some bytes) = streamServerHandler uplink bytes.
Proof.
  intros H Hwf Hno.
  pose proof (JsStringFacts.replace_absent _ EmptyString _ Hno) as Hsame.
  split; [exact Hsame|].
  apply (router_dispatch_parsed uplink bytes H).
  unfold hasConnectionTag. rewrite Hsame.
  apply JsStringFacts.forallb_some; [apply JsStringFacts.split_not_nil | exact Hwf].
Qed.

Lemma act_clientAddress (actions : list Action) :
  forall uplink : ReadyUplink,
    clientAddress (fold_left (act w) actions uplink) = clientAddress uplink.
Proof.
  induction actions as [|a actions IH]; intros uplink; simpl; [reflexivity|].
  rewrite IH. destruct a; reflexivity.
Qed.

Lemma act_keeps_client_handler (actions : list Action) :
  forallb (fun a => negb (isRegisterPacketHandler a)) actions = true ->
  forall uplink : ReadyUplink,
    streamClientHandler uplink = defaultIlpPrepareHandler w ->
    streamClientHandler (fold_left (act w) actions uplink) = defaultIlpPrepareHandler w.
Proof.
  induction actions as [|a actions IH]; intros Hnone uplink Hdefault; simpl; [exact Hdefault|].
  simpl in Hnone. apply andb_true_iff in Hnone. destruct Hnone as [Ha Hnone].
  apply (IH Hnone). destruct a; simpl in *; [discriminate | reflexivity | exact Hdefault].
Qed.

Lemma act_after_deregistration (earlier later : list Action) (uplink0 : ReadyUplink) :
  let uplink := fold_left (act w) (earlier ++ DeregisterPacketHandler :: later) uplink0 in
  let fresh := fold_left (act w) (DeregisterPacketHandler :: later) uplink0 in
  streamClientHandler uplink = streamClientHandler fresh
  /\ clientAddress uplink = clientAddress fresh.
Proof.
  cbv zeta. rewrite fold_left_app. cbn [fold_left].
  set (u := fold_left (act w) earlier uplink0).
  assert (Ha : clientAddress u = clientAddress uplink0) by apply act_clientAddress.
  assert (Hgen : forall a b : ReadyUplink,
             streamClientHandler a = streamClientHandler b ->
             streamClientHandler (fold_left (act w) later a)
             = streamClientHandler (fold_left (act w) later b)).
  { induction later as [|x xs IH]; intros a b Hab; simpl; [exact Hab|].
    apply IH. destruct x; simpl; auto. }
  split.
  - apply Hgen. reflexivity.
  - rewrite !act_clientAddress. simpl. exact Ha.
Qed.

(** C8. Whatever handlers were registered on an uplink before
    [deregisterPacketHandler] is called, they no longer handle any payload
    that parses as a Prepare for exactly the address of the uplink: such a
    payload is handled as if nothing had been registered before, and, until
    a packet handler is registered again, by the default handler. *)
Theorem deregistered_handler_is_default (uplink0 : ReadyUplink)
  (earlier later : list Action) (bytes : Buffer) (prepare : IlpPrepare) :
  deserializeIlpPrepare w bytes = inr prepare ->
  destination prepare = clientAddress uplink0 ->
  let uplink := fold_left (act w) (earlier ++ DeregisterPacketHandler :: later) uplink0 in
  let fresh := fold_left (act w) (DeregisterPacketHandler :: later) uplink0 in
  installedHandler w uplink (Some bytes) = installedHandler w fresh (Some bytes)
  /\ (forallb (fun a => negb (isRegisterPacketHandler a)) later = true ->
      streamClientHandler uplink = defaultIlpPrepareHandler w
      /\ installedHandler w uplink (Some bytes)
         = bind (defaultIlpPrepareHandler w prepare)
                (fun reply => lift (serializeIlpReply w reply))).
Proof.
  intros Hparse Hdest uplink fresh.
  destruct (act_after_deregistration earlier later uplink0) as [Hslot Haddr].
  fold uplink in Hslot, Haddr. fold fresh in Hslot, Haddr.
  assert (Hown : destination prepare = clientAddress uplink).
  { unfold uplink. rewrite act_clientAddress. exact Hdest. }
  assert (Hown' : destination prepare = clientAddress fresh).
  { unfold fresh. rewrite act_clientAddress. exact Hdest. }
  split.
  - rewrite (proj1 (router_dispatch_parsed uplink bytes Hparse) Hown).
    rewrite (proj1 (router_dispatch_parsed fresh bytes Hparse) Hown').
    rewrite Hslot. reflexivity.
  - intros Hlater.
    assert (Hdefault : streamClientHandler uplink = defaultIlpPrepareHandler w).
    { unfold uplink. rewrite fold_left_app. simpl.
      apply (act_keeps_client_handler _ Hlater). reflexivity. }
    split; [exact Hdefault|].
    rewrite <- Hdefault.
    exact (proj1 (router_dispatch_parsed uplink bytes Hparse) Hown).
Qed.

(** C9. [disconnect] first stops the STREAM server; a failure to stop it is
    logged and nothing more; then [plugin.disconnect] is called, and its
    outcome, failure included, is the outcome of [disconnect]. *)
Theorem disconnect_stops_server_then_transport (uplink : ReadyUplink) (tr0 : Trace) :
  let stopped := stopStreamServer w (streamServer uplink) tr0 in
  let logged := match stopped with
                | inl err => [EvLogError "Error stopping Stream server: " err]
                | inr _ => []
                end in
  let before := EvStopStreamServer (streamServer uplink) stopped :: logged in
  let disconnected := plugin_disconnect w (tr0 ++ before) in
  eventsOf (disconnect w uplink) tr0 = before ++ [EvPluginDisconnect disconnected]
  /\ outcomeOf (disconnect w uplink) tr0 = disconnected.
Proof.
  unfold eventsOf, outcomeOf, disconnect, logError, bind, settle, call, ret.
  destruct (stopStreamServer w (streamServer uplink) tr0) as [err|[]];
    cbv zeta; tidy_trace; split; reflexivity.
Qed.

Lemma transmit_run (prepare : IlpPrepare) (tr : Trace) :
  transmit w prepare tr
  = match serializeIlpPrepare w prepare with
    | inl err => (tr, inl err)
    | inr bytes =>
        let sent := pluginWrapper_sendData w bytes tr in
        (tr ++ [EvSendData bytes sent],
         match sent with
         | inl err => inl err
         | inr reply => deserializeIlpReply w reply
         end)
    end.
Proof.
  unfold transmit, bind, lift, call.
  destruct (serializeIlpPrepare w prepare) as [err|bytes]; [reflexivity|].
  cbv zeta. destruct (pluginWrapper_sendData w bytes tr); reflexivity.
Qed.

Lemma transmit_events (prepare : IlpPrepare) (tr : Trace) :
  fst (transmit w prepare tr) = tr ++ eventsOf (transmit w prepare) tr
  /\ eventsOf (transmit w prepare) tr
     = match serializeIlpPrepare w prepare with
       | inl _ => []
       | inr bytes => [EvSendData bytes (pluginWrapper_sendData w bytes tr)]
       end.
Proof.
  unfold eventsOf. rewrite transmit_run.
  destruct (serializeIlpPrepare w prepare) as [e|bytes]; cbv zeta; cbn [fst].
  - rewrite skipn_all, app_nil_r. split; reflexivity.
  - rewrite skipn_app_exact. split; reflexivity.
Qed.

(** The calls and the outcome of [sendPacket]. *)
Lemma sendPacket_run (uplink : ReadyUplink) (prepare : IlpPrepare) (tr0 : Trace) :
  let requested := Qminus (payableBalance_value w tr0) (inject_Z (amount prepare)) in
  let settlement := pluginWrapper_sendMoney w requested tr0 in
  let tr1 := tr0 ++ [EvSendMoney requested settlement] in
  let logged := match settlement with
                | inl err => [EvLogError "Error during outgoing settlement: " err]
                | inr _ => []
                end in
  eventsOf (sendPacket w uplink prepare) tr0
  = EvSendMoney requested settlement :: eventsOf (transmit w prepare) tr1 ++ logged
  /\ outcomeOf (sendPacket w uplink prepare) tr0 = outcomeOf (transmit w prepare) tr1.
Proof.
  cbv zeta.
  set (requested := Qminus (payableBalance_value w tr0) (inject_Z (amount prepare))).
  set (settlement := pluginWrapper_sendMoney w requested tr0).
  set (tr1 := tr0 ++ [EvSendMoney requested settlement]).
  destruct (transmit_events prepare tr1) as [Hfst _].
  assert (Hrun : sendPacket w uplink prepare tr0
                 = (fst (transmit w prepare tr1)
                      ++ match settlement with
                         | inl err => [EvLogError "Error during outgoing settlement: " err]
                         | inr _ => []
                         end,
                    snd (transmit w prepare tr1))).
  { unfold sendPacket, logError, bind, settle, call, ret, lift.
    fold requested. fold settlement. fold tr1.
    destruct (transmit w prepare tr1) as [tr2 outcome]. cbn [fst snd].
    destruct settlement as [err|[]]; [reflexivity|].
    rewrite app_nil_r. reflexivity. }
  unfold eventsOf at 1, outcomeOf at 1. rewrite Hrun. cbn [fst snd].
  rewrite Hfst. unfold tr1 at 1. rewrite <- !app_assoc, skipn_app_exact.
  split; reflexivity.
Qed.

Lemma transmit_requests_no_settlement (prepare : IlpPrepare) (tr : Trace) :
  filter isSendMoney (eventsOf (transmit w prepare) tr) = []
  /\ requestsPositiveSettlement (eventsOf (transmit w prepare) tr) = false.
Proof.
  destruct (transmit_events prepare tr) as [_ ->].
  destruct (serializeIlpPrepare w prepare); split; reflexivity.
Qed.

Lemma nonpositive_request_not_positive (requested : Q) :
  (requested <= 0)%Q -> negb (Qle_bool requested 0) = false.
Proof.
  intros H. apply negb_false_iff. apply Qle_bool_iff. exact H.
Qed.

Lemma sendPacket_positive_settlement (uplink : ReadyUplink) (prepare : IlpPrepare)
  (tr0 : Trace) :
  requestsPositiveSettlement (eventsOf (sendPacket w uplink prepare) tr0)
  = negb (Qle_bool (Qminus (payableBalance_value w tr0) (inject_Z (amount prepare))) 0).
Proof.
  destruct (sendPacket_run uplink prepare tr0) as [Hev _]. cbv zeta in Hev.
  rewrite Hev. unfold requestsPositiveSettlement. cbn [existsb].
  rewrite existsb_app.
  destruct (transmit_requests_no_settlement prepare
              (tr0 ++ [EvSendMoney
                         (Qminus (payableBalance_value w tr0) (inject_Z (amount prepare)))
                         (pluginWrapper_sendMoney w
                            (Qminus (payableBalance_value w tr0) (inject_Z (amount prepare)))
                            tr0)]))
    as [_ Hnone].
  unfold requestsPositiveSettlement in Hnone. rewrite Hnone.
  destruct (pluginWrapper_sendMoney w _ tr0); cbn [existsb orb];
    rewrite !orb_false_r; reflexivity.
Qed.

(** C3. [sendPacket] invokes [sendMoney] once, first, with the payable
    balance read at the start of the call minus [prepare.amount]; when that
    value is at most 0 no transfer is issued; and whatever it is, the Prepare
    is serialized and handed to [sendData], whose outcome decides the
    outcome of [sendPacket]. *)
Theorem sendPacket_prefunds_the_difference (uplink : ReadyUplink)
  (prepare : IlpPrepare) (tr0 : Trace) :
  let requested := Qminus (payableBalance_value w tr0) (inject_Z (amount prepare)) in
  let settlement := pluginWrapper_sendMoney w requested tr0 in
  let events := eventsOf (sendPacket w uplink prepare) tr0 in
  (exists rest : Trace,
     events = EvSendMoney requested settlement :: rest /\ filter isSendMoney rest = [])
  /\ ((requested <= 0)%Q ->
      sendMoney_transfer requested = None /\ requestsPositiveSettlement events = false)
  /\ (forall bytes : Buffer,
        serializeIlpPrepare w prepare = inr bytes ->
        exists sent : Result Buffer, In (EvSendData bytes sent) events)
  /\ outcomeOf (sendPacket w uplink prepare) tr0
     = outcomeOf (transmit w prepare) (tr0 ++ [EvSendMoney requested settlement]).
Proof.
  intros requested settlement events.
  destruct (sendPacket_run uplink prepare tr0) as [Hev Hout].
  cbv zeta in Hev, Hout. fold requested in Hev, Hout. fold settlement in Hev, Hout.
  fold events in Hev.
  set (tr1 := tr0 ++ [EvSendMoney requested settlement]) in *.
  destruct (transmit_requests_no_settlement prepare tr1) as [Hnone _].
  destruct (transmit_events prepare tr1) as [_ Htr].
  repeat split.
  - eexists. split; [exact Hev|].
    rewrite filter_app, Hnone. destruct settlement; reflexivity.
  - unfold sendMoney_transfer.
    apply Qle_bool_iff in H. rewrite H. reflexivity.
  - unfold events. rewrite sendPacket_positive_settlement.
    apply nonpositive_request_not_positive. exact H.
  - intros bytes Hser. rewrite Hev, Htr, Hser.
    eexists. right. left. reflexivity.
  - exact Hout.
Qed.

(** C7. The outcome of [sendPacket] is the outcome of the transmission,
    whatever the outcome of [sendMoney]: a failed settlement is logged, and
    [sendPacket] rejects only with an error of [serializeIlpPrepare], of
    [sendData] or of [deserializeIlpReply]. *)
Theorem settlement_failure_is_only_logged (uplink : ReadyUplink)
  (prepare : IlpPrepare) (tr0 : Trace) :
  let requested := Qminus (payableBalance_value w tr0) (inject_Z (amount prepare)) in
  let settlement := pluginWrapper_sendMoney w requested tr0 in
  let events := eventsOf (sendPacket w uplink prepare) tr0 in
  outcomeOf (sendPacket w uplink prepare) tr0
  = outcomeOf (transmit w prepare) (tr0 ++ [EvSendMoney requested settlement])
  /\ (forall err : Error,
        settlement = inl err ->
        In (EvLogError "Error during outgoing settlement: " err) events)
  /\ (forall err : Error,
        outcomeOf (sendPacket w uplink prepare) tr0 = inl err ->
        serializeIlpPrepare w prepare = inl err
        \/ exists bytes : Buffer,
             serializeIlpPrepare w prepare = inr bytes
             /\ (In (EvSendData bytes (inl err)) events
                 \/ exists reply : Buffer,
                      In (EvSendData bytes (inr reply)) events
                      /\ deserializeIlpReply w reply = inl err)).
Proof.
  intros requested settlement events.
  destruct (sendPacket_run uplink prepare tr0) as [Hev Hout].
  cbv zeta in Hev, Hout. fold requested in Hev, Hout. fold settlement in Hev, Hout.
  fold events in Hev.
  set (tr1 := tr0 ++ [EvSendMoney requested settlement]) in *.
  destruct (transmit_events prepare tr1) as [_ Htr].
  split; [exact Hout|]. split.
  - intros err Hfail. rewrite Hev, Hfail.
    right. apply in_or_app. right. left. reflexivity.
  - intros err Hrej. rewrite Hout in Hrej. unfold outcomeOf in Hrej.
    rewrite transmit_run in Hrej. rewrite Hev, Htr.
    destruct (serializeIlpPrepare w prepare) as [e|bytes].
    + left. simpl in Hrej. congruence.
    + right. exists bytes. split; [reflexivity|].
      cbv zeta in Hrej. cbn [snd] in Hrej.
      destruct (pluginWrapper_sendData w bytes tr1) as [e|reply].
      * left. right. left. congruence.
      * right. exists reply. split; [right; left; reflexivity | exact Hrej].
Qed.

End Properties.

(** ** The scenarios of the specification, on concrete uplinks *)

Lemma scenario_connects :
  connectUplink (Scenario.world Scenario.compatible) Scenario.state Scenario.base
    Scenario.config []
  = (fst (connectUplink (Scenario.world Scenario.compatible) Scenario.state
            Scenario.base Scenario.config []),
     inr Scenario.uplink).
Proof. reflexivity. Qed.

(** Scenario A: outgoing capacity 10 and total received 5 give a balance of
    15; once the outgoing capacity becomes 7 the balance is 12. *)
Lemma balance_is_sum_of_latest_witness :
  Rx.value (Rx.balance_ (Rx.run (tracker Scenario.uplink) [])) = 15
  /\ Rx.value (Rx.balance_ (Rx.run (tracker Scenario.uplink) [Rx.OutgoingCapacity 7])) = 12
  /\ Rx.emitted (Rx.balance_ (Rx.run (tracker Scenario.uplink) [Rx.OutgoingCapacity 7]))
     = [0; 15; 12].
Proof.
  destruct (balance_is_sum_of_latest (Scenario.world Scenario.compatible) Scenario.state
              Scenario.base Scenario.config [] [] scenario_connects) as [Hnow Hnext].
  destruct (balance_is_sum_of_latest (Scenario.world Scenario.compatible) Scenario.state
              Scenario.base Scenario.config [] [Rx.OutgoingCapacity 7] scenario_connects)
    as [Hthen _].
  split; [exact Hnow|]. split; [exact Hthen|].
  exact (Hnext (Rx.OutgoingCapacity 7) eq_refl).
Defined.

(** A ceiling converted to 1234.567 base units gives a [maxInFlight] of 1234,
    handed to the wrapper as both of its limits. *)
Lemma maxInFlight_fixed_at_connection_witness :
  maxInFlight Scenario.uplink = 1234
  /\ maxBalance (pluginWrapper Scenario.uplink) = maxInFlight Scenario.uplink
  /\ maxPacketAmount (pluginWrapper Scenario.uplink) = maxInFlight Scenario.uplink
  /\ List.length (filter isConvert
                    (eventsOf (connectUplink (Scenario.world Scenario.compatible)
                                 Scenario.state Scenario.base Scenario.config) []))
     = 1%nat.
Proof.
  destruct (maxInFlight_fixed_at_connection (Scenario.world Scenario.compatible)
              Scenario.state Scenario.base Scenario.config [] scenario_connects)
    as (settler & converted & _ & Hconv & _ & _ & _ & _ & _ & Hbal & Hpkt).
  split; [reflexivity|]. split; [exact Hbal|]. split; [exact Hpkt|].
  rewrite Hconv. reflexivity.
Defined.

(** Scenario B with a transport that fails to disconnect: the peer reports
    ETH to an XRP settler, [plugin.disconnect] is called once and fails, and
    [connectUplink] rejects with the error of the disconnect, not with the
    incompatible-peer error. *)
Lemma incompatible_peer_error_counterexample :
  getOrCreateSettler (Scenario.world Scenario.incompatibleStuck) Scenario.state
    (settlerType Scenario.config) [] = inr Scenario.xrpSettler
  /\ In (EvFetchAssetDetails (inr Scenario.ethPeer))
        (eventsOf (connectUplink (Scenario.world Scenario.incompatibleStuck)
                     Scenario.state Scenario.base Scenario.config) [])
  /\ incompatiblePeer Scenario.ethPeer Scenario.xrpSettler = true
  /\ filter isDisconnect
       (eventsOf (connectUplink (Scenario.world Scenario.incompatibleStuck)
                    Scenario.state Scenario.base Scenario.config) [])
     = [EvPluginDisconnect (inl (mkError "socket already closed"))]
  /\ outcomeOf (connectUplink (Scenario.world Scenario.incompatibleStuck)
                  Scenario.state Scenario.base Scenario.config) []
     = inl (mkError "socket already closed")
  /\ outcomeOf (connectUplink (Scenario.world Scenario.incompatibleStuck)
                  Scenario.state Scenario.base Scenario.config) []
     <> inl incompatiblePeerError.
Proof.
  split; [reflexivity|]. split; [right; right; left; reflexivity|].
  split; [reflexivity|]. split; [reflexivity|]. split; [reflexivity|].
  discriminate.
Qed.

(** Scenario B: the peer reports ETH to an XRP settler; the transport is
    disconnected once and the connect call rejects. *)
Lemma incompatible_peer_disconnects_then_rejects_witness :
  exists (before : Trace) (disconnected : Result unit),
    eventsOf (connectUplink (Scenario.world Scenario.incompatible) Scenario.state
                Scenario.base Scenario.config) []
    = before ++ [EvPluginDisconnect disconnected]
    /\ filter isDisconnect before = []
    /\ outcomeOf (connectUplink (Scenario.world Scenario.incompatible) Scenario.state
                    Scenario.base Scenario.config) []
       = inl (match disconnected with
              | inl err => err
              | inr _ => incompatiblePeerError
              end).
Proof.
  apply (@incompatible_peer_disconnects_then_rejects _
           (Scenario.world Scenario.incompatible) Scenario.state Scenario.base
           Scenario.config [] Scenario.xrpSettler Scenario.ethPeer).
  - reflexivity.
  - right. right. left. reflexivity.
  - reflexivity.
Defined.

(** Scenario C: with the address g.kava.abc123, a packet for
    g.kava.abc123.~n9f goes to the server handler and a packet for
    g.kava.abc123 to the client handler. *)
Lemma router_dispatch_witness :
  installedHandler (Scenario.world Scenario.compatible) Scenario.uplink
    (Some (list_byte_of_string "g.kava.abc123.~n9f"))
  = streamServerHandler Scenario.uplink (list_byte_of_string "g.kava.abc123.~n9f")
  /\ installedHandler (Scenario.world Scenario.compatible) Scenario.uplink
       (Some (list_byte_of_string "g.kava.abc123"))
     = bind (streamClientHandler Scenario.uplink (Scenario.prepareTo "g.kava.abc123" 0))
            (fun reply =>
               lift (serializeIlpReply (Scenario.world Scenario.compatible) reply)).
Proof.
  split.
  - apply (router_dispatch (Scenario.world Scenario.compatible) Scenario.uplink
             (list_byte_of_string "g.kava.abc123.~n9f")
             (prepare := Scenario.prepareTo "g.kava.abc123.~n9f" 0) eq_refl).
    reflexivity.
  - apply (router_dispatch (Scenario.world Scenario.compatible) Scenario.uplink
             (list_byte_of_string "g.kava.abc123")
             (prepare := Scenario.prepareTo "g.kava.abc123" 0) eq_refl).
    reflexivity.
Defined.

(** A packet for g.other.xyz9 reaches the server handler of the uplink
    g.kava.abc123. *)
Lemma foreign_destination_goes_to_server_witness :
  JsString.replace (clientAddress Scenario.uplink) EmptyString "g.other.xyz9"
  = "g.other.xyz9"%string
  /\ installedHandler (Scenario.world Scenario.compatible) Scenario.uplink
       (Some (list_byte_of_string "g.other.xyz9"))
     = streamServerHandler Scenario.uplink (list_byte_of_string "g.other.xyz9").
Proof.
  apply (foreign_destination_goes_to_server (Scenario.world Scenario.compatible)
           Scenario.uplink (list_byte_of_string "g.other.xyz9")
           (prepare := Scenario.prepareTo "g.other.xyz9" 0));
    reflexivity.
Defined.

(** A handler is registered, then deregistered, then the STREAM server
    registers its own: a packet for g.kava.abc123 gets the answer of the
    default handler. *)
Lemma deregistered_handler_is_default_witness :
  installedHandler (Scenario.world Scenario.compatible)
    (fold_left (act (Scenario.world Scenario.compatible))
       ([RegisterPacketHandler Scenario.fulfilling]
          ++ DeregisterPacketHandler
          :: [RegisterServerHandler (fun _ => ret Scenario.serverReply)])
       Scenario.uplink)
    (Some (list_byte_of_string "g.kava.abc123")) []
  = ([], inr (list_byte_of_string "F02")).
Proof.
  destruct (deregistered_handler_is_default (Scenario.world Scenario.compatible)
              Scenario.uplink [RegisterPacketHandler Scenario.fulfilling]
              [RegisterServerHandler (fun _ => ret Scenario.serverReply)]
              (list_byte_of_string "g.kava.abc123")
              (prepare := Scenario.prepareTo "g.kava.abc123" 0)
              eq_refl eq_refl) as [_ Hdefault].
  destruct (Hdefault eq_refl) as [_ Hrun].
  exact (f_equal (fun handled : M Buffer => handled []) Hrun).
Defined.

(** The server fails to stop and the transport to disconnect: the first
    failure is logged, the second is the outcome. *)
Lemma disconnect_stops_server_then_transport_witness :
  eventsOf (disconnect (Scenario.world Scenario.stuck) Scenario.uplink) []
  = [@EvStopStreamServer Scenario.types 7%nat (inl (mkError "server already closed"));
     EvLogError "Error stopping Stream server: " (mkError "server already closed");
     EvPluginDisconnect (inl (mkError "socket already closed"))]
  /\ outcomeOf (disconnect (Scenario.world Scenario.stuck) Scenario.uplink) []
     = inl (mkError "socket already closed").
Proof.
  exact (disconnect_stops_server_then_transport (Scenario.world Scenario.stuck)
           Scenario.uplink []).
Defined.

(** C2. [sendPacket] at the inputs where it departs from the claim and from
    its own comments ("prefund the value of the packet", "if we've already
    prefunded enough ... sendMoney will simply return"). With a payable
    balance of 100 and a packet of 30 the balance is not below the amount,
    and [sendMoney] is invoked with 70, a strictly positive value. With a
    payable balance of 0 and a packet of 100, [sendMoney] is invoked with
    -100: nothing is prefunded. *)
Theorem sendPacket_settles_the_difference_backwards :
  ((inject_Z (amount (Scenario.prepareTo "g.kava.peer" 30))
    <= payableBalance_value (Scenario.world Scenario.owing) [])%Q
   /\ eventsOf (sendPacket (Scenario.world Scenario.owing) Scenario.uplink
                  (Scenario.prepareTo "g.kava.peer" 30)) []
      = [EvSendMoney 70 (inr tt);
         EvSendData (list_byte_of_string "g.kava.peer")
                    (inr (list_byte_of_string "g.kava.peer"))]
   /\ requestsPositiveSettlement
        (eventsOf (sendPacket (Scenario.world Scenario.owing) Scenario.uplink
                     (Scenario.prepareTo "g.kava.peer" 30)) [])
      = true)
  /\ (payableBalance_value (Scenario.world Scenario.fresh) [] == 0
      /\ eventsOf (sendPacket (Scenario.world Scenario.fresh) Scenario.uplink
                     (Scenario.prepareTo "g.kava.peer" 100)) []
         = [EvSendMoney (-100) (inr tt);
            EvSendData (list_byte_of_string "g.kava.peer")
                       (inr (list_byte_of_string "g.kava.peer"))]
      /\ requestsPositiveSettlement
           (eventsOf (sendPacket (Scenario.world Scenario.fresh) Scenario.uplink
                        (Scenario.prepareTo "g.kava.peer" 100)) [])
         = false).
Proof.
  split.
  - split; [discriminate|]. split; reflexivity.
  - split; [reflexivity|]. split; reflexivity.
Qed.

(** Scenario D: [sendMoney] is asked for -70, which issues no transfer, and
    the packet is transmitted. *)
Lemma sendPacket_prefunds_the_difference_witness :
  (exists rest : Trace,
     eventsOf (sendPacket (Scenario.world Scenario.compatible) Scenario.uplink
                 (Scenario.prepareTo "g.kava.peer" 100)) []
     = EvSendMoney (-70) (inr tt) :: rest
     /\ filter isSendMoney rest = [])
  /\ sendMoney_transfer (-70) = None
  /\ (exists sent : Result Buffer,
        In (EvSendData (list_byte_of_string "g.kava.peer") sent)
           (eventsOf (sendPacket (Scenario.world Scenario.compatible) Scenario.uplink
                        (Scenario.prepareTo "g.kava.peer" 100)) []))
  /\ outcomeOf (sendPacket (Scenario.world Scenario.compatible) Scenario.uplink
                  (Scenario.prepareTo "g.kava.peer" 100)) []
     = inr (IlpFulfill (list_byte_of_string "g.kava.peer") []).
Proof.
  destruct (sendPacket_prefunds_the_difference (Scenario.world Scenario.compatible)
              Scenario.uplink (Scenario.prepareTo "g.kava.peer" 100) [])
    as (Hfirst & Hnoop & Hsent & Hout).
  split; [exact Hfirst|].
  split; [apply Hnoop; discriminate|].
  split; [apply Hsent; reflexivity|].
  rewrite Hout. reflexivity.
Defined.

(** The settlement fails and the transmission succeeds: the failure is
    logged and [sendPacket] resolves with the reply. *)
Lemma settlement_failure_is_only_logged_witness :
  pluginWrapper_sendMoney (Scenario.world Scenario.unsettled) 30 []
  = inl (mkError "no channel to settle")
  /\ In (EvLogError "Error during outgoing settlement: " (mkError "no channel to settle"))
        (eventsOf (sendPacket (Scenario.world Scenario.unsettled) Scenario.uplink
                     (Scenario.prepareTo "g.kava.peer" 100)) [])
  /\ outcomeOf (sendPacket (Scenario.world Scenario.unsettled) Scenario.uplink
                  (Scenario.prepareTo "g.kava.peer" 100)) []
     = inr (IlpFulfill (list_byte_of_string "g.kava.peer") []).
Proof.
  destruct (settlement_failure_is_only_logged (Scenario.world Scenario.unsettled)
              Scenario.uplink (Scenario.prepareTo "g.kava.peer" 100) [])
    as (Hout & Hlog & _).
  split; [reflexivity|].
  split; [apply Hlog; reflexivity|].
  rewrite Hout. reflexivity.
Defined.

(** ** Further properties of the string operations and the observables *)

Module JsStringMore.

Import JsString.
Local Open Scope string_scope.

Lemma some_split_onlySeparators (sep : ascii) (s : string) :
  some truthy (split sep s) = negb (onlySeparators sep s).
Proof.
  induction s as [|c s IH]; [reflexivity|].
  cbn [split onlySeparators]. destruct (Ascii.eqb c sep).
  - cbn. exact IH.
  - pose proof (JsStringFacts.split_not_nil sep s) as Hne.
    destruct (split sep s) as [|seg segs]; [contradiction Hne; reflexivity|].
    reflexivity.
Qed.

End JsStringMore.

Module RxMore.

Import Rx.

Lemma next_live (v : BigNumber) (s : BehaviorSubject) :
  hasError s = false ->
  hasError (next v s) = false
  /\ emitted (next v s) = emitted s ++ [v]
  /\ value (next v s) = v.
Proof. intros H. unfold next. rewrite H. repeat split. Qed.

Lemma last_shift {A : Type} (l : list A) (v d : A) : last (v :: l) d = last l v.
Proof.
  revert v d. induction l as [|x l IH]; intros v d; [reflexivity|].
  change (last (x :: l) d = last (x :: l) v). rewrite (IH x d), (IH x v). reflexivity.
Qed.

Lemma run_mirrors (es : list Emission) :
  forall t : Tracker,
    hasError (availableToSend_ t) = false ->
    hasError (availableToReceive_ t) = false ->
    emitted (availableToSend_ (run t es))
    = emitted (availableToSend_ t) ++ outgoingValues es
    /\ emitted (availableToReceive_ (run t es))
       = emitted (availableToReceive_ t) ++ incomingValues es
    /\ value (availableToSend_ (run t es))
       = last (outgoingValues es) (value (availableToSend_ t))
    /\ value (availableToReceive_ (run t es))
       = last (incomingValues es) (value (availableToReceive_ t)).
Proof.
  induction es as [|e es IH]; intros t Hs Hr.
  - cbn. rewrite !app_nil_r. repeat split.
  - change (run t (e :: es)) with (run (emit t e) es).
    destruct e as [v|v|v]; cbn [outgoingValues incomingValues flat_map app].
    + destruct (next_live v (availableToSend_ t) Hs) as (Hl & He & Hv).
      destruct (IH (emit t (OutgoingCapacity v)) Hl Hr) as (I1 & I2 & I3 & I4).
      rewrite I1, I2, I3, I4. cbn [emit availableToSend_ availableToReceive_].
      rewrite He, Hv, <- app_assoc.
      repeat split. cbn [app]. symmetry. apply last_shift.
    + destruct (next_live v (availableToReceive_ t) Hr) as (Hl & He & Hv).
      destruct (IH (emit t (IncomingCapacity v)) Hs Hl) as (I1 & I2 & I3 & I4).
      rewrite I1, I2, I3, I4. cbn [emit availableToSend_ availableToReceive_].
      rewrite He, Hv, <- app_assoc.
      repeat split. cbn [app]. symmetry. apply last_shift.
    + destruct (IH (emit t (TotalReceived v)) Hs Hr) as (I1 & I2 & I3 & I4).
      rewrite I1, I2, I3, I4. cbn [emit availableToSend_ availableToReceive_].
      repeat split.
Qed.

(** X1. [availableToSend_] and [availableToReceive_] start at 0, take the
    value their source holds when [connectUplink] subscribes them, and then
    deliver every value of the outgoing, respectively incoming, capacity, in
    order and without dropping repeated values; nothing else reaches them. *)
Theorem available_amounts_mirror_capacities
  (outgoingCapacity incomingCapacity totalReceived : BehaviorSubject)
  (es : list Emission) :
  let t := run (wire outgoingCapacity incomingCapacity totalReceived) es in
  emitted (availableToSend_ t) = 0 :: value outgoingCapacity :: outgoingValues es
  /\ emitted (availableToReceive_ t) = 0 :: value incomingCapacity :: incomingValues es
  /\ value (availableToSend_ t) = last (outgoingValues es) (value outgoingCapacity)
  /\ value (availableToReceive_ t) = last (incomingValues es) (value incomingCapacity).
Proof.
  cbv zeta.
  destruct (run_mirrors es (wire outgoingCapacity incomingCapacity totalReceived)
              eq_refl eq_refl) as (H1 & H2 & H3 & H4).
  rewrite H1, H2, H3, H4. repeat split.
Qed.

Lemma run_history (es : list Emission) :
  forall (lo lr : BigNumber) (t : Tracker),
    RxFacts.balanced lo lr t ->
    emitted (balance_ (run t es)) = emitted (balance_ t) ++ sumsAfter lo lr es.
Proof.
  induction es as [|e es IH]; intros lo lr t Hb.
  - cbn. rewrite app_nil_r. reflexivity.
  - change (run t (e :: es)) with (run (emit t e) es).
    rewrite (IH _ _ _ (RxFacts.emit_balanced e Hb)), (RxFacts.emit_emitted e Hb).
    destruct e as [v|v|v]; cbn; rewrite <- ?app_assoc; reflexivity.
Qed.

Lemma sumsAfter_length (es : list Emission) :
  forall lo lr : BigNumber,
    List.length (sumsAfter lo lr es) = List.length (filter feedsBalance es).
Proof.
  induction es as [|e es IH]; intros lo lr; [reflexivity|].
  destruct e as [v|v|v]; cbn [sumsAfter filter feedsBalance List.length];
    try f_equal; apply IH.
Qed.

(** X2. The values [balance_] delivers are, in order: its initial 0, the sum
    of the two values the sources hold when [connectUplink] subscribes, and
    then, for each value notification of the outgoing capacity or of the
    total received, the sum of the latest two values, repeated sums
    included. [sumAll] is given the two latest values each time, so its
    [reduce] never fails; a notification of the incoming capacity leaves
    [balance_] alone. *)
Theorem balance_emits_once_per_source_emission
  (outgoingCapacity incomingCapacity totalReceived : BehaviorSubject)
  (es : list Emission) :
  let t := run (wire outgoingCapacity incomingCapacity totalReceived) es in
  emitted (balance_ t)
  = 0 :: Qplus (value outgoingCapacity) (value totalReceived)
      :: sumsAfter (value outgoingCapacity) (value totalReceived) es
  /\ hasError (balance_ t) = false
  /\ List.length (emitted (balance_ t)) = (2 + List.length (filter feedsBalance es))%nat
  /\ forall v : BigNumber, balance_ (emit t (IncomingCapacity v)) = balance_ t.
Proof.
  cbv zeta.
  pose proof (RxFacts.wire_balanced outgoingCapacity incomingCapacity totalReceived) as Hw.
  pose proof (RxFacts.run_balanced es Hw) as Hb.
  pose proof (run_history es Hw) as Hh.
  split; [exact Hh|]. split; [exact (proj2 (proj2 Hb))|]. split; [|reflexivity].
  rewrite Hh, length_app, sumsAfter_length. reflexivity.
Qed.

Lemma changing_distinctFrom (values : list BigNumber) :
  forall prev : BigNumber, changing (prev :: distinctFrom prev values) = true.
Proof.
  induction values as [|curr rest IH]; intros prev; [reflexivity|].
  cbn [distinctFrom]. destruct (Qeq_bool prev curr) eqn:E; [apply IH|].
  change (negb (Qeq_bool prev curr) && changing (curr :: distinctFrom curr rest) = true).
  rewrite E, IH. reflexivity.
Qed.

Lemma distinctFrom_changing (values : list BigNumber) :
  forall prev : BigNumber,
    changing (prev :: values) = true -> distinctFrom prev values = values.
Proof.
  induction values as [|curr rest IH]; intros prev H; [reflexivity|].
  change (negb (Qeq_bool prev curr) && changing (curr :: rest) = true) in H.
  apply andb_true_iff in H. destruct H as [Hne Hrest].
  apply negb_true_iff in Hne. cbn [distinctFrom]. rewrite Hne, (IH _ Hrest).
  reflexivity.
Qed.

Lemma last_equal_heads (a b d : BigNumber) (rest : list BigNumber) :
  a == b -> last (a :: rest) d == last (b :: rest) d.
Proof. intros H. destruct rest; [exact H | reflexivity]. Qed.

Lemma last_distinctFrom (values : list BigNumber) :
  forall prev d : BigNumber,
    last (prev :: distinctFrom prev values) d == last (prev :: values) d.
Proof.
  induction values as [|curr rest IH]; intros prev d; [reflexivity|].
  cbn [distinctFrom]. destruct (Qeq_bool prev curr) eqn:E.
  - rewrite IH. apply Qeq_bool_eq in E.
    change (last (prev :: curr :: rest) d) with (last (curr :: rest) d).
    apply last_equal_heads. exact E.
  - change (last (curr :: distinctFrom curr rest) d == last (curr :: rest) d).
    apply IH.
Qed.

(** X3. Behind [distinctBigNum] no two consecutive values are numerically
    equal, the last value delivered is numerically equal to the last value of
    the source, and applying it twice changes nothing more. *)
Theorem distinctBigNum_drops_only_repeats (values : list BigNumber) (d : BigNumber) :
  changing (distinctBigNum values) = true
  /\ last (distinctBigNum values) d == last values d
  /\ distinctBigNum (distinctBigNum values) = distinctBigNum values.
Proof.
  destruct values as [|first rest]; [repeat split; reflexivity|].
  cbn [distinctBigNum].
  split; [apply changing_distinctFrom|]. split; [apply last_distinctFrom|].
  rewrite (distinctFrom_changing _ _ (changing_distinctFrom rest first)). reflexivity.
Qed.

Definition total (values : list Q) : Q := fold_right Qplus 0 values.

Lemma fold_left_total (values : list Q) :
  forall a : Q, fold_left Qplus values a == a + total values.
Proof.
  induction values as [|v rest IH]; intros a; cbn [fold_left total fold_right].
  - ring.
  - rewrite IH. unfold total. ring.
Qed.

Lemma total_permutation (xs ys : list Q) :
  Permutation xs ys -> total xs == total ys.
Proof.
  induction 1 as [|x xs ys _ IH|x y xs|xs ys zs _ IH1 _ IH2];
    cbn [total fold_right] in *.
  - reflexivity.
  - fold (total xs). fold (total ys). rewrite IH. reflexivity.
  - ring.
  - rewrite IH1. exact IH2.
Qed.

(** X4. [sumAll] fails on the empty array only; on any other it yields the
    sum of the values, which does not depend on their order. *)
Theorem sumAll_sums_in_any_order (xs ys : list BigNumber) :
  Permutation xs ys ->
  (sumAll xs = None <-> xs = [])
  /\ match sumAll xs, sumAll ys with
     | Some a, Some b => a == total xs /\ a == b
     | None, None => True
     | _, _ => False
     end.
Proof.
  intros HP. split.
  - destruct xs; cbn [sumAll reduce]; split; intros H; try reflexivity; discriminate H.
  - pose proof (total_permutation HP) as Ht.
    destruct xs as [|x xs]; destruct ys as [|y ys]; cbn [sumAll reduce].
    + exact I.
    + apply Permutation_nil in HP. discriminate.
    + apply Permutation_sym, Permutation_nil in HP. discriminate.
    + rewrite !fold_left_total. cbn [total fold_right] in *.
      split; [reflexivity | exact Ht].
Qed.

End RxMore.

(** ** Further properties of the uplink *)

Section Further.

Context {types : ExternalTypes}.
Variable w : World.

Ltac settle_trace :=
  cbn [fst snd]; repeat rewrite <- app_assoc; rewrite ?skipn_app_exact; cbn [app].

(** Every run of [connectUplink] is one of the eight of [ConnectRun]. *)
Lemma connectUplink_run (state : State) (base : BaseUplink) (config : BaseUplinkConfig)
  (tr0 : Trace) :
  ConnectRun w state base config
    (eventsOf (connectUplink w state base config) tr0)
    (outcomeOf (connectUplink w state base config) tr0).
Proof.
  unfold eventsOf, outcomeOf, connectUplink, verifyUpstreamAssetDetails,
    getNativeMaxInFlight, setupHandlers, bind, call, ret, throw.
  destruct (getOrCreateSettler w state (settlerType config) tr0) as [err|settler].
  { settle_trace. constructor. }
  destruct (plugin_connect w _) as [err|[]].
  { settle_trace. constructor. }
  destruct (fetchAssetDetails w _) as [err|details].
  { settle_trace. constructor. }
  destruct (incompatiblePeer details settler) eqn:E.
  { destruct (plugin_disconnect w _) as [err|[]]; settle_trace.
    - apply (RunIncompatible w state base config settler details (inl err) E).
    - apply (RunIncompatible w state base config settler details (inr tt) E). }
  destruct (getOrCreateSettler w state (settlerType config) _) as [err|settler'].
  { settle_trace. constructor. exact E. }
  destruct (convert w _ _ _ _) as [err|converted].
  { settle_trace. constructor. exact E. }
  destruct (startStreamServer w _ _) as [err|[server registered]].
  { settle_trace. apply RunNoServer. exact E. }
  settle_trace. apply RunReady. exact E.
Qed.

(** X5. [connectUplink] calls [plugin.disconnect] in one situation only: it
    has resolved the settler, connected the plugin and received asset
    details that differ from the settler's. The disconnect is then its
    fourth and last call, and it rejects. After any other failure the
    transport is left as it is. *)
Theorem connectUplink_disconnects_only_incompatible_peers (state : State)
  (base : BaseUplink) (config : BaseUplinkConfig) (tr0 : Trace)
  (disconnected : Result unit) :
  In (EvPluginDisconnect disconnected) (eventsOf (connectUplink w state base config) tr0) ->
  exists (settler : SettlementEngine) (details : AssetDetails),
    incompatiblePeer details settler = true
    /\ eventsOf (connectUplink w state base config) tr0
       = [EvGetOrCreateSettler (settlerType config) (inr settler);
          EvPluginConnect (inr tt);
          EvFetchAssetDetails (inr details);
          EvPluginDisconnect disconnected]
    /\ outcomeOf (connectUplink w state base config) tr0
       = inl (match disconnected with
              | inl err => err
              | inr _ => incompatiblePeerError
              end).
Proof.
  intros Hin.
  destruct (connectUplink_run state base config tr0);
    cbn [In] in Hin;
    repeat (destruct Hin as [Hin|Hin]; [try discriminate Hin|]);
    try contradiction Hin.
  injection Hin as ->. exists settler, details. repeat split. assumption.
Qed.

(** X6. When [connectUplink] rejects after having asked the STREAM server
    to start, the wrapper has been constructed and the data handler
    registered, and [plugin.disconnect] has not been called: the caller is
    left with a connected transport. *)
Theorem failed_server_start_leaves_transport_connected (state : State)
  (base : BaseUplink) (config : BaseUplinkConfig) (tr0 : Trace) (err : Error)
  (secret : Buffer) :
  In (EvStartStreamServer secret) (eventsOf (connectUplink w state base config) tr0) ->
  outcomeOf (connectUplink w state base config) tr0 = inl err ->
  filter isDisconnect (eventsOf (connectUplink w state base config) tr0) = []
  /\ In (EvPluginConnect (inr tt)) (eventsOf (connectUplink w state base config) tr0)
  /\ In EvRegisterDataHandler (eventsOf (connectUplink w state base config) tr0)
  /\ exists opts : PluginWrapperOpts,
       In (EvNewPluginWrapper opts) (eventsOf (connectUplink w state base config) tr0).
Proof.
  intros Hin Hout.
  destruct (connectUplink_run state base config tr0);
    try discriminate Hout;
    cbn [In] in Hin;
    repeat (destruct Hin as [Hin|Hin]; [try discriminate Hin|]);
    try contradiction Hin.
  split; [reflexivity|]. split; [cbn; tauto|]. split; [cbn; tauto|].
  eexists. cbn. do 5 right. left. reflexivity.
Qed.

Lemma compatible_details (details : AssetDetails) (settler : SettlementEngine) :
  incompatiblePeer details settler = false ->
  peerAssetCode details = assetCode settler /\ peerAssetScale details = assetScale settler.
Proof.
  unfold incompatiblePeer. intros H. apply orb_false_iff in H. destruct H as [Hc Hs].
  apply negb_false_iff in Hc, Hs.
  split; [apply String.eqb_eq; exact Hc | apply Z.eqb_eq; exact Hs].
Qed.

(** The calls of a [connectUplink] that resolves, with the answer of the
    STREAM server. *)
Lemma connectUplink_started (state : State) (base : BaseUplink)
  (config : BaseUplinkConfig) (tr0 tr1 : Trace) (uplink : ReadyUplink) :
  connectUplink w state base config tr0 = (tr1, inr uplink) ->
  exists settler details settler' converted server registered,
    let before :=
      [EvGetOrCreateSettler (settlerType config) (inr settler);
       EvPluginConnect (inr tt);
       EvFetchAssetDetails (inr details);
       EvGetOrCreateSettler (settlerType config) (inr settler');
       EvConvert (maxInFlightUsd state) (baseUnit settler' tt) (rateBackend state)
                 (inr converted);
       EvNewPluginWrapper (wrapperOptsFor settler (dp0_ROUND_DOWN converted));
       EvDeregisterDataHandler;
       EvRegisterDataHandler] in
    tr1 = tr0 ++ before ++ [EvStartStreamServer (serverSecret config)]
    /\ incompatiblePeer details settler = false
    /\ startStreamServer w (serverSecret config) (tr0 ++ before) = inr (server, registered)
    /\ uplink = fold_left registerServerHandler registered
                  (mkReadyUplink base (wrapperOptsFor settler (dp0_ROUND_DOWN converted))
                     (defaultIlpPrepareHandler w) (defaultDataHandler w)
                     (peerClientAddress details) (dp0_ROUND_DOWN converted)
                     (Rx.wire (outgoingCapacity_ base) (incomingCapacity_ base)
                              (totalReceived_ base))
                     server).
Proof.
  unfold connectUplink, verifyUpstreamAssetDetails, getNativeMaxInFlight,
    setupHandlers, bind, call, ret, throw.
  destruct (getOrCreateSettler w state (settlerType config) tr0)
    as [err|settler]; [discriminate|].
  destruct (plugin_connect w _) as [err|[]]; [discriminate|].
  destruct (fetchAssetDetails w _) as [err|details]; [discriminate|].
  destruct (incompatiblePeer details settler) eqn:E.
  { destruct (plugin_disconnect w _); discriminate. }
  destruct (getOrCreateSettler w state (settlerType config) _)
    as [err|settler']; [discriminate|].
  destruct (convert w _ _ _ _) as [err|converted]; [discriminate|].
  destruct (startStreamServer w _ _) as [err|[server registered]] eqn:Es; [discriminate|].
  intros H. injection H as <- <-.
  exists settler, details, settler', converted, server, registered.
  cbv zeta. repeat rewrite <- app_assoc in Es. cbn [app] in Es.
  repeat rewrite <- app_assoc. cbn [app].
  split; [reflexivity|]. split; [exact E|]. split; [exact Es | reflexivity].
Qed.

Lemma registered_server_handler (registered : list DataHandler) :
  forall uplink : ReadyUplink,
    streamServerHandler (fold_left registerServerHandler registered uplink)
    = last registered (streamServerHandler uplink).
Proof.
  induction registered as [|h hs IH]; intros uplink; [reflexivity|].
  cbn [fold_left]. rewrite IH. cbn [registerServerHandler streamServerHandler].
  symmetry. apply (@RxMore.last_shift DataHandler).
Qed.

(** X7. The uplink [connectUplink] resolves with has the client address the
    handshake returned, its wrapper is configured with the asset code and
    scale the peer reported, its client handler is the default one, its
    STREAM server is the one [startStreamServer] answered with (asked last,
    after all the other calls), and its server handler is the last one that
    server registered while starting (the default one if it registered
    none). *)
Theorem connected_uplink_is_wired_to_the_peer (state : State) (base : BaseUplink)
  (config : BaseUplinkConfig) (tr0 tr1 : Trace) (uplink : ReadyUplink) :
  connectUplink w state base config tr0 = (tr1, inr uplink) ->
  let events := eventsOf (connectUplink w state base config) tr0 in
  exists (details : AssetDetails) (registered : list DataHandler),
    In (EvFetchAssetDetails (inr details)) events
    /\ startStreamServer w (serverSecret config) (tr0 ++ removelast events)
       = inr (streamServer uplink, registered)
    /\ last events EvRegisterDataHandler = EvStartStreamServer (serverSecret config)
    /\ clientAddress uplink = peerClientAddress details
    /\ optsAssetCode (pluginWrapper uplink) = peerAssetCode details
    /\ optsAssetScale (pluginWrapper uplink) = peerAssetScale details
    /\ baseUplink uplink = base
    /\ streamClientHandler uplink = defaultIlpPrepareHandler w
    /\ streamServerHandler uplink = last registered (defaultDataHandler w).
Proof.
  intros H events.
  destruct (connectUplink_started _ _ _ _ H)
    as (settler & details & settler' & converted & server & registered
        & Htr & Hcompat & Hstart & Hup).
  cbv zeta in Htr, Hstart.
  assert (Hev : events
                = [EvGetOrCreateSettler (settlerType config) (inr settler);
                   EvPluginConnect (inr tt);
                   EvFetchAssetDetails (inr details);
                   EvGetOrCreateSettler (settlerType config) (inr settler');
                   EvConvert (maxInFlightUsd state) (baseUnit settler' tt)
                             (rateBackend state) (inr converted);
                   EvNewPluginWrapper (wrapperOptsFor settler (dp0_ROUND_DOWN converted));
                   EvDeregisterDataHandler;
                   EvRegisterDataHandler;
                   EvStartStreamServer (serverSecret config)]).
  { unfold events, eventsOf. rewrite H. cbn [fst]. rewrite Htr.
    rewrite skipn_app_exact. reflexivity. }
  match type of Hup with _ = fold_left _ _ ?u =>
    destruct (registered_fields registered u) as (Hb & Hw & Hc & Ha & _ & _ & Hs);
    pose proof (registered_server_handler registered u) as Hsrv
  end.
  cbv zeta in Hb, Hw, Hc, Ha, Hs. rewrite <- Hup in Hb, Hw, Hc, Ha, Hs, Hsrv.
  destruct (compatible_details _ _ Hcompat) as [Hcode Hscale].
  exists details, registered.
  rewrite Hev, Hb, Hw, Hc, Ha, Hs, Hsrv. cbn [removelast last].
  cbn. rewrite Hcode, Hscale.
  repeat split; auto.
Qed.

(** X8. A delivery without a payload is rejected with "no ilp packet
    included", and a payload the parser refuses with the parser's error: in
    both cases no handler is invoked and no call is made. *)
Theorem router_rejects_unusable_payloads (uplink : ReadyUplink) (tr : Trace) :
  installedHandler w uplink None tr = (tr, inl noPacketError)
  /\ forall (bytes : Buffer) (err : Error),
       deserializeIlpPrepare w bytes = inl err ->
       installedHandler w uplink (Some bytes) tr = (tr, inl err).
Proof.
  split; [reflexivity|].
  intros bytes err H. unfold installedHandler, dataHandler, bind, lift.
  rewrite H. reflexivity.
Qed.

(** X9. What decides between the two handlers is whether the destination,
    once the first occurrence of the client address is removed, consists of
    dots only: then (as for the client address followed by a dot) the parsed
    Prepare goes to the client handler, otherwise the payload goes to the
    server handler. *)
Theorem router_sends_dots_only_to_client (uplink : ReadyUplink) (bytes : Buffer)
  (prepare : IlpPrepare) :
  deserializeIlpPrepare w bytes = inr prepare ->
  let rest := JsString.replace (clientAddress uplink) EmptyString (destination prepare) in
  installedHandler w uplink (Some bytes)
  = if JsString.onlySeparators "."%char rest
    then bind (streamClientHandler uplink prepare)
              (fun reply => lift (serializeIlpReply w reply))
    else streamServerHandler uplink bytes.
Proof.
  intros H rest. unfold installedHandler. rewrite (dataHandler_parsed w _ _ _ _ H).
  unfold hasConnectionTag. fold rest.
  rewrite JsStringMore.some_split_onlySeparators.
  destruct (JsString.onlySeparators "."%char rest); reflexivity.
Qed.

Lemma act_leaves_server_handler (actions : list Action) :
  forallb leavesServerHandler actions = true ->
  forall uplink : ReadyUplink,
    streamServerHandler (fold_left (act w) actions uplink) = streamServerHandler uplink.
Proof.
  induction actions as [|a actions IH]; intros Hall uplink; [reflexivity|].
  cbn [forallb] in Hall. apply andb_true_iff in Hall. destruct Hall as [Ha Hall].
  cbn [fold_left]. rewrite (IH Hall). destruct a; [reflexivity | reflexivity | discriminate Ha].
Qed.

Lemma act_leaves_packet_handler (actions : list Action) :
  forallb leavesPacketHandler actions = true ->
  forall uplink : ReadyUplink,
    streamClientHandler (fold_left (act w) actions uplink) = streamClientHandler uplink.
Proof.
  induction actions as [|a actions IH]; intros Hall uplink; [reflexivity|].
  cbn [forallb] in Hall. apply andb_true_iff in Hall. destruct Hall as [Ha Hall].
  cbn [fold_left]. rewrite (IH Hall). destruct a; [discriminate Ha | discriminate Ha | reflexivity].
Qed.

(** X10. After [registerPacketHandler handler], and until a packet handler
    is registered or deregistered again, a payload that parses as a Prepare
    for exactly the address of the uplink is handed to [handler], whatever
    was registered before and whatever the STREAM server registers since. *)
Theorem registered_handler_serves_own_address (uplink0 : ReadyUplink)
  (handler : IlpPrepareHandler) (earlier later : list Action) (bytes : Buffer)
  (prepare : IlpPrepare) :
  deserializeIlpPrepare w bytes = inr prepare ->
  destination prepare = clientAddress uplink0 ->
  forallb leavesPacketHandler later = true ->
  installedHandler w
    (fold_left (act w) (earlier ++ RegisterPacketHandler handler :: later) uplink0)
    (Some bytes)
  = bind (handler prepare) (fun reply => lift (serializeIlpReply w reply)).
Proof.
  intros Hparse Hdest Hlater.
  set (uplink := fold_left (act w) (earlier ++ RegisterPacketHandler handler :: later)
                   uplink0).
  assert (Hslot : streamClientHandler uplink = handler).
  { unfold uplink. rewrite fold_left_app. cbn [fold_left].
    rewrite (act_leaves_packet_handler _ Hlater). reflexivity. }
  rewrite <- Hslot.
  apply (router_dispatch_parsed w uplink bytes Hparse).
  unfold uplink. rewrite act_clientAddress. exact Hdest.
Qed.

(** X11. Registering and deregistering packet handlers never changes what
    happens to a payload whose destination carries a tag: it goes to the
    server handler the uplink had. *)
Theorem packet_handlers_do_not_touch_tagged_traffic (uplink0 : ReadyUplink)
  (actions : list Action) (bytes : Buffer) (prepare : IlpPrepare) :
  deserializeIlpPrepare w bytes = inr prepare ->
  hasConnectionTag (clientAddress uplink0) (destination prepare) = true ->
  forallb leavesServerHandler actions = true ->
  installedHandler w (fold_left (act w) actions uplink0) (Some bytes)
  = streamServerHandler uplink0 bytes.
Proof.
  intros Hparse Htag Hall.
  rewrite <- (act_leaves_server_handler _ Hall uplink0).
  apply (router_dispatch_parsed w (fold_left (act w) actions uplink0) bytes Hparse).
  rewrite act_clientAddress. exact Htag.
Qed.

(** X12. [sendPacket] asks for the settlement before it serializes the
    Prepare: when the serialization fails, [sendMoney] has been invoked all
    the same (with the payable balance minus the amount), [sendData] is not
    invoked, and [sendPacket] rejects with the error of the serialization. *)
Theorem settlement_is_requested_before_serialization (uplink : ReadyUplink)
  (prepare : IlpPrepare) (tr0 : Trace) (err : Error) :
  serializeIlpPrepare w prepare = inl err ->
  let requested := Qminus (payableBalance_value w tr0) (inject_Z (amount prepare)) in
  let settlement := pluginWrapper_sendMoney w requested tr0 in
  eventsOf (sendPacket w uplink prepare) tr0
  = EvSendMoney requested settlement
    :: match settlement with
       | inl failure => [EvLogError "Error during outgoing settlement: " failure]
       | inr _ => []
       end
  /\ filter isSendData (eventsOf (sendPacket w uplink prepare) tr0) = []
  /\ outcomeOf (sendPacket w uplink prepare) tr0 = inl err.
Proof.
  intros Hser requested settlement.
  destruct (sendPacket_run w uplink prepare tr0) as [Hev Hout].
  cbv zeta in Hev, Hout. fold requested in Hev, Hout. fold settlement in Hev, Hout.
  set (tr1 := tr0 ++ [EvSendMoney requested settlement]) in *.
  destruct (transmit_events w prepare tr1) as [_ Htr].
  rewrite Hser in Htr. rewrite Hev, Hout, Htr. cbn [app].
  split; [reflexivity|]. split.
  - destruct settlement; reflexivity.
  - unfold outcomeOf. rewrite transmit_run, Hser. reflexivity.
Qed.

(** X13. [sendPacket] invokes [sendData] at most once, and only with the
    serialized Prepare. *)
Theorem sendPacket_transmits_at_most_once (uplink : ReadyUplink)
  (prepare : IlpPrepare) (tr0 : Trace) :
  (List.length (filter isSendData (eventsOf (sendPacket w uplink prepare) tr0)) <= 1)%nat
  /\ forall (payload : Buffer) (sent : Result Buffer),
       In (EvSendData payload sent) (eventsOf (sendPacket w uplink prepare) tr0) ->
       serializeIlpPrepare w prepare = inr payload.
Proof.
  destruct (sendPacket_run w uplink prepare tr0) as [Hev _]. cbv zeta in Hev.
  set (requested := Qminus (payableBalance_value w tr0) (inject_Z (amount prepare))) in *.
  set (settlement := pluginWrapper_sendMoney w requested tr0) in *.
  set (tr1 := tr0 ++ [EvSendMoney requested settlement]) in *.
  destruct (transmit_events w prepare tr1) as [_ Htr].
  rewrite Hev, Htr.
  destruct (serializeIlpPrepare w prepare) as [e|bytes]; destruct settlement as [f|[]];
    (split; [cbn; lia|]); intros payload sent Hin; cbn [In app] in Hin;
    repeat (destruct Hin as [Hin|Hin]; [try discriminate Hin|]);
    try contradiction Hin.
  - injection Hin as -> _. reflexivity.
  - injection Hin as -> _. reflexivity.
Qed.

(** X14. When [getNativeMaxInFlight] resolves it has made two calls, the
    lookup of the settler and the conversion, and its result is the converted
    amount with the fraction cut off: never further from zero than the
    converted amount, and less than one unit away from it. *)
Theorem getNativeMaxInFlight_cuts_the_fraction (state : State)
  (ty : SettlementEngineType) (tr0 tr1 : Trace) (native : Q) :
  getNativeMaxInFlight w state ty tr0 = (tr1, inr native) ->
  exists (settler : SettlementEngine) (converted : Q),
    tr1 = tr0 ++ [EvGetOrCreateSettler ty (inr settler);
                  EvConvert (maxInFlightUsd state) (baseUnit settler tt)
                            (rateBackend state) (inr converted)]
    /\ Qden native = 1%positive
    /\ ((0 <= converted)%Q ->
        (0 <= native)%Q /\ (native <= converted)%Q /\ (converted < native + 1)%Q)
    /\ ((converted <= 0)%Q ->
        (native <= 0)%Q /\ (converted <= native)%Q /\ (native - 1 < converted)%Q).
Proof.
  unfold getNativeMaxInFlight, bind, call, ret.
  destruct (getOrCreateSettler w state ty tr0) as [err|settler]; [discriminate|].
  destruct (convert w _ _ _ _) as [err|converted]; [discriminate|].
  intros H. injection H as <- <-.
  exists settler, converted. rewrite <- app_assoc.
  split; [reflexivity|]. split; [reflexivity|]. split.
  - intros Hpos. rewrite (dp0_ROUND_DOWN_floor Hpos).
    pose proof (Qfloor_le converted) as Hle.
    pose proof (Qlt_floor converted) as Hlt.
    rewrite inject_Z_plus in Hlt.
    assert (Hz : (0 <= Qfloor converted)%Z).
    { rewrite <- (Qfloor_Z 0). apply Qfloor_resp_le. exact Hpos. }
    rewrite Zle_Qle in Hz.
    repeat split; [exact Hz | exact Hle | exact Hlt].
  - intros Hneg. rewrite (dp0_ROUND_DOWN_ceiling Hneg).
    pose proof (Qle_ceiling converted) as Hle.
    pose proof (Qceiling_lt converted) as Hlt.
    unfold Z.sub in Hlt. rewrite inject_Z_plus in Hlt.
    assert (Hz : (Qceiling converted <= 0)%Z).
    { rewrite <- (Qceiling_Z 0). apply Qceiling_resp_le. exact Hneg. }
    rewrite Zle_Qle in Hz.
    repeat split; [exact Hz | exact Hle | exact Hlt].
Qed.

End Further.

(** ** Properties of the Ethereum ledger *)

Module EthFacts.

Import Eth.
Local Open Scope Q_scope.

Section Ledger.

Variable IUnit : Type.
Variables unitEth unitGwei : IUnit.
Variable convert : string -> IUnit -> IUnit -> Q.
Variable privateKey : string.

Lemma gas_total : inject_Z gas = 206280 # 1.
Proof. reflexivity. Qed.


(** X16. For one and the same gas price that is not negative, the amount
    [setupPlugin] has streamed to open the channel is at most the credit
    limit [createPlugin] configures: the two are in the proportion of 115636
    to 206280 gas. *)
Theorem setupPlugin_amount_within_credit (gasPrice : Q) (serverUri : string) :
  0 <= gasPrice ->
  let limits := balance (createPlugin unitEth unitGwei convert privateKey gasPrice serverUri) in
  setupPluginAmount gasPrice <= settleThreshold limits
  /\ setupPluginAmount gasPrice * 206280 == settleThreshold limits * 115636
  /\ 0 <= setupPluginAmount gasPrice.
Proof.
  intros Hg. cbv zeta. unfold createPlugin, setupPluginAmount.
  cbn [balance settleThreshold]. rewrite gas_total.
  change (inject_Z 115636) with (115636 # 1).
  repeat split; lra.
Qed.

End Ledger.

End EthFacts.

(** ** The further properties on concrete uplinks *)

Lemma sumAll_sums_in_any_order_witness :
  match Rx.sumAll [10; 5; 7], Rx.sumAll [7; 10; 5] with
  | Some a, Some b => a == RxMore.total [10; 5; 7] /\ a == b
  | None, None => True
  | _, _ => False
  end.
Proof.
  assert (H : Permutation [10; 5; 7] [7; 10; 5]).
  { apply Permutation_sym. apply (Permutation_cons_app [10; 5] [] 7). reflexivity. }
  exact (proj2 (RxMore.sumAll_sums_in_any_order H)).
Defined.

Lemma connectUplink_disconnects_only_incompatible_peers_witness :
  exists (settler : SettlementEngine) (details : AssetDetails),
    incompatiblePeer details settler = true
    /\ eventsOf (connectUplink (Scenario.world Scenario.incompatible) Scenario.state
                   Scenario.base Scenario.config) []
       = [EvGetOrCreateSettler (settlerType Scenario.config) (inr settler);
          EvPluginConnect (inr tt);
          EvFetchAssetDetails (inr details);
          EvPluginDisconnect (inr tt)]
    /\ outcomeOf (connectUplink (Scenario.world Scenario.incompatible) Scenario.state
                    Scenario.base Scenario.config) []
       = inl incompatiblePeerError.
Proof.
  apply (connectUplink_disconnects_only_incompatible_peers
           (Scenario.world Scenario.incompatible) Scenario.state Scenario.base
           Scenario.config [] (inr tt)).
  right. right. right. left. reflexivity.
Defined.

Lemma failed_server_start_leaves_transport_connected_witness :
  outcomeOf (connectUplink (Scenario.serverless Scenario.compatible) Scenario.state
               Scenario.base Scenario.config) []
  = inl (mkError "port in use")
  /\ filter isDisconnect
       (eventsOf (connectUplink (Scenario.serverless Scenario.compatible) Scenario.state
                    Scenario.base Scenario.config) [])
     = [].
Proof.
  split; [reflexivity|].
  apply (@failed_server_start_leaves_transport_connected _
           (Scenario.serverless Scenario.compatible) Scenario.state Scenario.base
           Scenario.config [] (mkError "port in use") []).
  - do 8 right. left. reflexivity.
  - reflexivity.
Defined.

Lemma connected_uplink_is_wired_to_the_peer_witness :
  exists (details : AssetDetails) (registered : list DataHandler),
    In (EvFetchAssetDetails (inr details))
       (eventsOf (connectUplink (Scenario.world Scenario.compatible) Scenario.state
                    Scenario.base Scenario.config) [])
    /\ startStreamServer (Scenario.world Scenario.compatible)
         (serverSecret Scenario.config)
         ([] ++ removelast
                  (eventsOf (connectUplink (Scenario.world Scenario.compatible)
                               Scenario.state Scenario.base Scenario.config) []))
       = inr (streamServer Scenario.uplink, registered)
    /\ last (eventsOf (connectUplink (Scenario.world Scenario.compatible) Scenario.state
                         Scenario.base Scenario.config) [])
            EvRegisterDataHandler
       = EvStartStreamServer (serverSecret Scenario.config)
    /\ clientAddress Scenario.uplink = peerClientAddress details
    /\ optsAssetCode (pluginWrapper Scenario.uplink) = peerAssetCode details
    /\ optsAssetScale (pluginWrapper Scenario.uplink) = peerAssetScale details
    /\ baseUplink Scenario.uplink = Scenario.base
    /\ streamClientHandler Scenario.uplink
       = defaultIlpPrepareHandler (Scenario.world Scenario.compatible)
    /\ streamServerHandler Scenario.uplink
       = last registered (defaultDataHandler (Scenario.world Scenario.compatible)).
Proof.
  exact (connected_uplink_is_wired_to_the_peer (Scenario.world Scenario.compatible)
           Scenario.state Scenario.base Scenario.config [] scenario_connects).
Defined.

Lemma router_rejects_unusable_payloads_witness :
  installedHandler (Scenario.refusing Scenario.compatible) Scenario.uplink None []
  = ([], inl noPacketError)
  /\ installedHandler (Scenario.refusing Scenario.compatible) Scenario.uplink
       (Some []) []
     = ([], inl (mkError "not a prepare")).
Proof.
  destruct (router_rejects_unusable_payloads (Scenario.refusing Scenario.compatible)
              Scenario.uplink []) as [Hnone Hbad].
  split; [exact Hnone | apply Hbad; reflexivity].
Defined.

(** The address of the uplink followed by a dot goes to the client handler. *)
Lemma router_sends_dots_only_to_client_witness :
  installedHandler (Scenario.world Scenario.compatible) Scenario.uplink
    (Some (list_byte_of_string "g.kava.abc123."))
  = bind (streamClientHandler Scenario.uplink (Scenario.prepareTo "g.kava.abc123." 0))
         (fun reply => lift (serializeIlpReply (Scenario.world Scenario.compatible) reply)).
Proof.
  exact (router_sends_dots_only_to_client (Scenario.world Scenario.compatible)
           Scenario.uplink (list_byte_of_string "g.kava.abc123.")
           (prepare := Scenario.prepareTo "g.kava.abc123." 0) eq_refl).
Defined.

Lemma registered_handler_serves_own_address_witness :
  installedHandler (Scenario.world Scenario.compatible)
    (fold_left (act (Scenario.world Scenario.compatible))
       ([DeregisterPacketHandler]
          ++ RegisterPacketHandler Scenario.fulfilling
          :: [RegisterServerHandler (fun _ => ret Scenario.serverReply)])
       Scenario.uplink)
    (Some (list_byte_of_string "g.kava.abc123")) []
  = ([], inr (list_byte_of_string "preimage")).
Proof.
  exact (f_equal (fun handled : M Buffer => handled [])
           (registered_handler_serves_own_address (Scenario.world Scenario.compatible)
              Scenario.uplink Scenario.fulfilling [DeregisterPacketHandler]
              [RegisterServerHandler (fun _ => ret Scenario.serverReply)]
              (list_byte_of_string "g.kava.abc123")
              (prepare := Scenario.prepareTo "g.kava.abc123" 0)
              eq_refl eq_refl eq_refl)).
Defined.

Lemma packet_handlers_do_not_touch_tagged_traffic_witness :
  installedHandler (Scenario.world Scenario.compatible)
    (fold_left (act (Scenario.world Scenario.compatible))
       [RegisterPacketHandler Scenario.fulfilling; DeregisterPacketHandler]
       Scenario.uplink)
    (Some (list_byte_of_string "g.kava.abc123.~n9f"))
  = streamServerHandler Scenario.uplink (list_byte_of_string "g.kava.abc123.~n9f").
Proof.
  exact (packet_handlers_do_not_touch_tagged_traffic (Scenario.world Scenario.compatible)
           Scenario.uplink
           [RegisterPacketHandler Scenario.fulfilling; DeregisterPacketHandler]
           (list_byte_of_string "g.kava.abc123.~n9f")
           (prepare := Scenario.prepareTo "g.kava.abc123.~n9f" 0)
           eq_refl eq_refl eq_refl).
Defined.

(** With a payable balance of 100 and a Prepare of 30 that cannot be
    serialized, 70 are requested and nothing is sent. *)
Lemma settlement_is_requested_before_serialization_witness :
  eventsOf (sendPacket (Scenario.refusing Scenario.owing) Scenario.uplink
              (Scenario.prepareTo "g.kava.peer" 30)) []
  = [EvSendMoney 70 (inr tt)]
  /\ outcomeOf (sendPacket (Scenario.refusing Scenario.owing) Scenario.uplink
                  (Scenario.prepareTo "g.kava.peer" 30)) []
     = inl (mkError "amount out of range").
Proof.
  destruct (settlement_is_requested_before_serialization
              (Scenario.refusing Scenario.owing) Scenario.uplink
              (Scenario.prepareTo "g.kava.peer" 30) [] (err := mkError "amount out of range")
              eq_refl) as (Hev & _ & Hout).
  split; [exact Hev | exact Hout].
Defined.

Lemma getNativeMaxInFlight_cuts_the_fraction_witness :
  getNativeMaxInFlight (Scenario.world Scenario.compatible) Scenario.state
    (settlerType Scenario.config) []
  = ([EvGetOrCreateSettler (settlerType Scenario.config) (inr Scenario.xrpSettler);
      EvConvert (maxInFlightUsd Scenario.state) (baseUnit Scenario.xrpSettler tt)
                (rateBackend Scenario.state) (inr (1234567 # 1000))],
     inr 1234)
  /\ exists (settler : SettlementEngine) (converted : Q),
       (0 <= converted -> 0 <= 1234 /\ 1234 <= converted /\ converted < 1234 + 1)
       /\ settler = Scenario.xrpSettler.
Proof.
  assert (H : getNativeMaxInFlight (Scenario.world Scenario.compatible) Scenario.state
                (settlerType Scenario.config) []
              = ([EvGetOrCreateSettler (settlerType Scenario.config)
                    (inr Scenario.xrpSettler);
                  EvConvert (maxInFlightUsd Scenario.state)
                    (baseUnit Scenario.xrpSettler tt)
                    (rateBackend Scenario.state) (inr (1234567 # 1000))],
                 inr 1234)) by reflexivity.
  split; [exact H|].
  destruct (getNativeMaxInFlight_cuts_the_fraction _ _ _ _ H)
    as (settler & converted & _ & _ & Hpos & _).
  exists Scenario.xrpSettler, converted. split; [exact Hpos | reflexivity].
Defined.


Lemma setupPlugin_amount_within_credit_witness :
  Eth.setupPluginAmount 2 == 346908
  /\ Eth.setupPluginAmount 2
     <= Eth.settleThreshold
          (Eth.balance (Eth.createPlugin true false (fun _ _ _ => 100000) "key" 2
                          "btp+wss://peer")).
Proof.
  split; [reflexivity|].
  apply (@EthFacts.setupPlugin_amount_within_credit bool true false
           (fun _ _ _ => 100000) "key" 2 "btp+wss://peer").
  discriminate.
Defined.
